(** * InputTools: the transliteration input widget

    A shallow embedding of [src/components/InputTools/InputTools.tsx].
    The React component is modelled as a record of its state cells and refs,
    its event handlers as functions on that record, and the widget as a whole
    (handlers, the [typedWord] effect, the lodash debounce and the pending
    fetches) as a partial transition function over browser events. *)

From Stdlib Require Import ZArith NArith List Bool Lia String Ascii DecimalString.
Import ListNotations.

Local Open Scope Z_scope.

Set Warnings "-register-all".

(** ** JavaScript values used by the component *)

Module JS.

(** A JavaScript string is a sequence of UTF-16 code units. *)
Definition code_unit := N.
Definition jsstring := list code_unit.

(** ASCII literals of the source. *)
Definition lit (s : string) : jsstring :=
  map N_of_ascii (list_ascii_of_string s).

Definition str_length (s : jsstring) : Z := Z.of_nat (List.length s).

Fixpoint str_eqb (a b : jsstring) : bool :=
  match a, b with
  | [], [] => true
  | x :: a', y :: b' => N.eqb x y && str_eqb a' b'
  | _, _ => false
  end.

(** ToBoolean on a string: only the empty string is falsy. *)
Definition truthy (s : jsstring) : bool :=
  match s with [] => false | _ :: _ => true end.

(** [String.prototype.substring(start, end)]: both arguments are clamped to
    [0, length] and swapped when [start > end]. *)
Definition substring (s : jsstring) (start stop : Z) : jsstring :=
  let len := str_length s in
  let fs := Z.min (Z.max start 0) len in
  let fe := Z.min (Z.max stop 0) len in
  let from := Z.min fs fe in
  let to := Z.max fs fe in
  firstn (Z.to_nat (to - from)) (skipn (Z.to_nat from) s).

(** [String.prototype.slice(start, end)]: negative arguments count from the
    end of the string; an omitted [end] is the length. *)
Definition slice (s : jsstring) (start : Z) (stop : option Z) : jsstring :=
  let len := str_length s in
  let rel k := if k <? 0 then Z.max (len + k) 0 else Z.min k len in
  let from := rel start in
  let to := match stop with None => len | Some e => rel e end in
  firstn (Z.to_nat (Z.max (to - from) 0)) (skipn (Z.to_nat from) s).

(** [a[i]] for an integer [i]: [None] stands for [undefined]. *)
Definition arr_length {A : Type} (a : list A) : Z := Z.of_nat (List.length a).

Definition index {A : Type} (a : list A) (i : Z) : option A :=
  if i <? 0 then None else nth_error a (Z.to_nat i).

(** Printing of a non-negative integer in a template literal. *)
Definition of_nonneg (n : Z) : jsstring :=
  lit (NilZero.string_of_uint (N.to_uint (Z.to_N n))).

(** The result of [JSON.parse]. A number literal is kept as a decimal
    mantissa and exponent; the component never looks inside a number. *)
Inductive json : Type :=
| JNull
| JBool (b : bool)
| JNum (mantissa exponent : Z)
| JStr (s : jsstring)
| JArr (elems : list json)
| JObj (fields : list (jsstring * json)).

Definition high_surrogate (c : code_unit) : bool :=
  ((55296 <=? c) && (c <=? 56319))%N.
Definition low_surrogate (c : code_unit) : bool :=
  ((56320 <=? c) && (c <=? 57343))%N.

(** The string iterator yields code points: a surrogate pair is one item. *)
Fixpoint code_points (s : jsstring) : list jsstring :=
  match s with
  | [] => []
  | c :: rest =>
      match rest with
      | d :: rest' =>
          if high_surrogate c && low_surrogate d
          then [c; d] :: code_points rest'
          else [c] :: code_points rest
      | [] => [[c]]
      end
  end.

End JS.

Import JS.

(** ** Constants and configuration *)

Inductive LANGUAGE_CODE : Type :=
| ENGLISH | AMHARIC | ARABIC | BENGALI | CHINESE | GREEK | GUJARATI | HINDI
| KANNADA | MALAYALAM | MARATHI | NEPALI | ORIYA | PERSIAN | PUNJABI
| RUSSIAN | SANSKRIT | SINHALESE | SERBIAN | TAMIL | TELUGU | TIGRINYA | URDU.

Definition language_code (l : LANGUAGE_CODE) : jsstring :=
  lit match l with
      | ENGLISH => "en" | AMHARIC => "am" | ARABIC => "ar" | BENGALI => "bn"
      | CHINESE => "zh" | GREEK => "el" | GUJARATI => "gu" | HINDI => "hi"
      | KANNADA => "kn" | MALAYALAM => "ml" | MARATHI => "mr"
      | NEPALI => "ne" | ORIYA => "or" | PERSIAN => "fa" | PUNJABI => "pa"
      | RUSSIAN => "ru" | SANSKRIT => "sa" | SINHALESE => "si"
      | SERBIAN => "sr" | TAMIL => "ta" | TELUGU => "te" | TIGRINYA => "ti"
      | URDU => "ur"
      end.

Definition MAX_SUGGESTIONS : Z := 5.

(** The two values the [showSuggestion] cell ever holds. *)
Inductive display : Type := DISPLAY_NONE | DISPLAY_BLOCK.

Definition display_eqb (a b : display) : bool :=
  match a, b with
  | DISPLAY_NONE, DISPLAY_NONE | DISPLAY_BLOCK, DISPLAY_BLOCK => true
  | _, _ => false
  end.

(** One code unit of the class [[A-Za-z0-9]]. *)
Definition alnum_unit (c : code_unit) : bool :=
  (((65 <=? c) && (c <=? 90)) || ((97 <=? c) && (c <=? 122))
   || ((48 <=? c) && (c <=? 57)))%N.

(** [/^[A-Za-z0-9]$/.test(val)]: exactly one code unit, of that class. *)
Definition isAplhaNumeric (val : jsstring) : bool :=
  match val with
  | [c] => alnum_unit c
  | _ => false
  end.

(** ** Component state

    The [useState] cells of the component, the [metaKey] ref, and the number
    of pending [setTimeout] callbacks that will reset that ref.  The popup
    coordinates [leftPos] and [topPos] depend on the rendered layout only and
    are left out. *)

Record state : Type := mkState {
  value : jsstring;
  typedWord : jsstring;
  suggestion : list jsstring;
  showSuggestion : display;
  selectedSuggestion : Z;
  cursorPosition : Z;
  metaKey : bool;
  metaTimers : nat
}.

Definition initial : state :=
  {| value := []; typedWord := []; suggestion := [];
     showSuggestion := DISPLAY_NONE; selectedSuggestion := 0;
     cursorPosition := 1; metaKey := false; metaTimers := 0 |}.

Definition setValue (v : jsstring) (s : state) : state :=
  mkState v (typedWord s) (suggestion s) (showSuggestion s)
          (selectedSuggestion s) (cursorPosition s) (metaKey s) (metaTimers s).
Definition setTypedWord (w : jsstring) (s : state) : state :=
  mkState (value s) w (suggestion s) (showSuggestion s)
          (selectedSuggestion s) (cursorPosition s) (metaKey s) (metaTimers s).
Definition setSuggestion (l : list jsstring) (s : state) : state :=
  mkState (value s) (typedWord s) l (showSuggestion s)
          (selectedSuggestion s) (cursorPosition s) (metaKey s) (metaTimers s).
Definition setShowSuggestion (d : display) (s : state) : state :=
  mkState (value s) (typedWord s) (suggestion s) d
          (selectedSuggestion s) (cursorPosition s) (metaKey s) (metaTimers s).
Definition setSelectedSuggestion (i : Z) (s : state) : state :=
  mkState (value s) (typedWord s) (suggestion s) (showSuggestion s)
          i (cursorPosition s) (metaKey s) (metaTimers s).
Definition setCursorPosition (c : Z) (s : state) : state :=
  mkState (value s) (typedWord s) (suggestion s) (showSuggestion s)
          (selectedSuggestion s) c (metaKey s) (metaTimers s).
Definition setMetaKey (b : bool) (s : state) : state :=
  mkState (value s) (typedWord s) (suggestion s) (showSuggestion s)
          (selectedSuggestion s) (cursorPosition s) b (metaTimers s).
Definition setMetaTimers (n : nat) (s : state) : state :=
  mkState (value s) (typedWord s) (suggestion s) (showSuggestion s)
          (selectedSuggestion s) (cursorPosition s) (metaKey s) n.

(** ** Events delivered by the browser *)

Record key_event : Type := mkKey {
  key : jsstring;
  ev_metaKey : bool
}.

(** [event.target] of a change event of the text area. *)
Record change_event : Type := mkChange {
  ev_value : jsstring;
  selectionStart : Z;
  selectionEnd : Z
}.

(** ** Event handlers *)

Definition onKeyDown (e : key_event) (s : state) : state :=
  if ev_metaKey e then setMetaKey true s else s.

Definition clearSuggestion (s : state) : state :=
  setMetaKey false
    (setShowSuggestion DISPLAY_NONE
       (setSelectedSuggestion 0 (setSuggestion [] (setTypedWord [] s)))).

Definition selectSuggestion (idx : Z) (s : state) : state :=
  let selectedValue := index (suggestion s) idx in
  let leftValue := substring (value s) 0 (cursorPosition s) in
  let rightValue := substring (value s) (cursorPosition s) (str_length (value s)) in
  match selectedValue with
  | Some c =>
      if truthy c
      then clearSuggestion
             (setCursorPosition (cursorPosition s + str_length c + 1)
                (setValue (leftValue ++ c ++ lit " " ++ rightValue) s))
      else clearSuggestion s
  | None => clearSuggestion s
  end.

Definition handleNonAlphaKeyPress (k : jsstring) (s : state) : state :=
  if str_eqb k (lit "ArrowDown") then
    let prev := selectedSuggestion s in
    setSelectedSuggestion
      (if prev <? arr_length (suggestion s) - 1 then prev + 1 else prev) s
  else if str_eqb k (lit "ArrowUp") then
    let prev := selectedSuggestion s in
    setSelectedSuggestion (if prev >? 0 then prev - 1 else prev) s
  else if str_eqb k (lit "Enter") then selectSuggestion (selectedSuggestion s) s
  else if str_eqb k (lit " ") then selectSuggestion (selectedSuggestion s) s
  else if str_eqb k (lit "Backspace") then
    if truthy (typedWord s)
    then
      let prev := typedWord s in
      setTypedWord (if truthy prev then slice prev 0 (Some (-1)) else prev) s
    else clearSuggestion s
  else s.

Definition onKeyUp (e : key_event) (s : state) : state :=
  if ev_metaKey e || str_eqb (key e) (lit "Meta") then
    setMetaTimers (S (metaTimers s)) s
  else if metaKey s then s
  else if isAplhaNumeric (key e) then
    setTypedWord (typedWord s ++ key e) (setShowSuggestion DISPLAY_BLOCK s)
  else if display_eqb (showSuggestion s) DISPLAY_NONE then s
  else handleNonAlphaKeyPress (key e) s.

Definition onChange (e : change_event) (s : state) : state :=
  if display_eqb (showSuggestion s) DISPLAY_BLOCK then s
  else
    let lastChar := slice (substring (ev_value e) 0 (selectionStart e)) (-1) None in
    if isAplhaNumeric lastChar
    then setCursorPosition (selectionEnd e - 1) s
    else setValue (ev_value e) (setCursorPosition (selectionEnd e) s).

(** The callback given to [setTimeout] in [onKeyUp]. *)
Definition metaTimeout (s : state) : state :=
  setMetaKey false (setMetaTimers (Nat.pred (metaTimers s)) s).

(** ** The debounced search

    The async function given to [debounce] runs in two parts: up to the
    [fetch] call, and from the parsed response on. *)

(** How the second part ends: with a call of [setSuggestion], by one of its
    [return] statements, or with a [TypeError] that rejects its promise. *)
Inductive completion : Type :=
| SetSuggestion (suggestions : list json)
| Return
| Throw.

Definition isArray (v : option json) : bool :=
  match v with Some (JArr _) => true | _ => false end.

(** The elements of an array value; used only behind [isArray]. *)
Definition elements (v : option json) : list json :=
  match v with Some (JArr l) => l | _ => [] end.

(** [v[i]] on an array value. *)
Definition at_index (v : option json) (i : Z) : option json :=
  index (elements v) i.

(** [v === s] for a string literal [s]. *)
Definition strict_eq_string (v : option json) (s : jsstring) : bool :=
  match v with Some (JStr t) => str_eqb t s | _ => false end.

(** [[...v]]: arrays and strings are iterable, nothing else in JSON is. *)
Definition spread (v : json) : option (list json) :=
  match v with
  | JArr l => Some l
  | JStr s => Some (map JStr (code_points s))
  | _ => None
  end.

Definition searchResponse (response : json) : completion :=
  let data := Some response in
  if negb (isArray data)
     || (arr_length (elements data) <? 2)
     || negb (strict_eq_string (at_index data 0) (lit "SUCCESS"))
     || negb (isArray (at_index data 1))
     || (arr_length (elements (at_index data 1)) <? 1)
  then Return
  else
    let dataRes := at_index (at_index data 1) 0 in
    if negb (isArray dataRes) || (arr_length (elements dataRes) <? 2)
    then Return
    else
      match at_index dataRes 0, at_index dataRes 1 with
      | Some original, Some alternatives =>
          match spread alternatives with
          | Some items => SetSuggestion (items ++ [original])
          | None => Throw
          end
      | _, _ => Return
      end.

(** The [suggestion] cell is declared [string[]]; a candidate list fits it
    when every entry is a string. *)
Fixpoint as_strings (l : list json) : option (list jsstring) :=
  match l with
  | [] => Some []
  | JStr s :: rest =>
      match as_strings rest with
      | Some ss => Some (s :: ss)
      | None => None
      end
  | _ :: _ => None
  end.

(** ** The mounted widget *)

(** A request handed to [fetch]: the word it asks about and the URL. *)
Record request : Type := mkRequest {
  req_text : jsstring;
  req_url : jsstring
}.

(** Component state, the argument of the armed debounce timer (if any), the
    number of fetches not yet settled, and every request issued so far. *)
Record widget : Type := mkWidget {
  st : state;
  pending : option jsstring;
  inflight : nat;
  requests : list request
}.

Inductive event : Type :=
| KeyDown (e : key_event)
| KeyUp (e : key_event)
| Change (e : change_event)
| Click (idx : Z)
| MetaTimeout
| DebounceElapsed
| FetchResolved (data : json)
| FetchRejected.

Definition mount : widget :=
  {| st := initial; pending := None; inflight := 0; requests := [] |}.

(** The effect on [typedWord]: when the word changed, the cleanup cancels the
    armed timer and the effect arms it again for a non-empty word. *)
Definition typedWordEffect (before after : state) (p : option jsstring)
  : option jsstring :=
  if str_eqb (typedWord before) (typedWord after) then p
  else if truthy (typedWord after) then Some (typedWord after) else None.

(** Run a handler, then the effect. *)
Definition handle (h : state -> state) (w : widget) : widget :=
  let s' := h (st w) in
  mkWidget s' (typedWordEffect (st w) s' (pending w)) (inflight w) (requests w).

Section Search.

Variable destLang : LANGUAGE_CODE.

Definition request_url (word : jsstring) : jsstring :=
  lit "https://inputtools.google.com/request?text=" ++ word
  ++ lit "&itc=" ++ language_code destLang
  ++ lit "-t-i0-und&num=" ++ of_nonneg MAX_SUGGESTIONS
  ++ lit "&cp=0&cs=1&ie=utf-8&oe=utf-8&app=demopage".

(** First part of the debounced function: the guard and the [fetch]. *)
Definition debouncedSearch (word : jsstring) (w : widget) : widget :=
  if negb (truthy word) then w
  else mkWidget (st w) (pending w) (S (inflight w))
                (requests w ++ [mkRequest word (request_url word)]).

(** Second part, once the response is parsed.  The source hands whatever the
    spread yields to [setSuggestion]; a list with an entry that is not a
    string does not fit the declared type [string[]] of the cell, and the
    states that would follow are outside this model ([None]). *)
Definition settle (data : json) (w : widget) : option widget :=
  match inflight w with
  | O => None
  | S n =>
      match searchResponse data with
      | SetSuggestion l =>
          match as_strings l with
          | Some l' =>
              Some (mkWidget (setSuggestion l' (st w)) (pending w) n (requests w))
          | None => None
          end
      | Return | Throw => Some (mkWidget (st w) (pending w) n (requests w))
      end
  end.

(** One browser event.  [None]: the event cannot occur in this state (no
    timer armed, no fetch in flight, no such list entry on screen), or the
    response would put a value that is not a string into [suggestion]. *)
Definition dispatch (e : event) (w : widget) : option widget :=
  match e with
  | KeyDown k => Some (handle (onKeyDown k) w)
  | KeyUp k => Some (handle (onKeyUp k) w)
  | Change c => Some (handle (onChange c) w)
  | Click idx =>
      match showSuggestion (st w), index (suggestion (st w)) idx with
      | DISPLAY_BLOCK, Some _ => Some (handle (selectSuggestion idx) w)
      | _, _ => None
      end
  | MetaTimeout =>
      match metaTimers (st w) with
      | O => None
      | S _ => Some (handle metaTimeout w)
      end
  | DebounceElapsed =>
      match pending w with
      | Some word =>
          Some (debouncedSearch word
                  (mkWidget (st w) None (inflight w) (requests w)))
      | None => None
      end
  | FetchResolved data => settle data w
  | FetchRejected =>
      match inflight w with
      | O => None
      | S n => Some (mkWidget (st w) (pending w) n (requests w))
      end
  end.

Fixpoint run (evs : list event) (w : widget) : option widget :=
  match evs with
  | [] => Some w
  | e :: rest =>
      match dispatch e w with
      | Some w' => run rest w'
      | None => None
      end
  end.

End Search.

(** What the DOM guarantees about the selection of a text area. *)
Definition wf_change (c : change_event) : Prop :=
  0 <= selectionStart c /\ selectionStart c <= selectionEnd c
  /\ selectionEnd c <= str_length (ev_value c).

Definition wf_event (e : event) : Prop :=
  match e with
  | Change c => wf_change c
  | _ => True
  end.

(** ** The value callback

    [useEffect(() => { onChangeCallback(value) }, [onChangeCallback, value])]:
    the host's callback runs after mount and after every event that changed
    [value].  The callback prop is taken to keep its identity, as it does in
    [App]. *)

Record hosted : Type := mkHosted {
  inner : widget;
  notified : list jsstring
}.

Definition mount_hosted : hosted := mkHosted mount [value (st mount)].

Definition valueEffect (before after : state) (log : list jsstring)
  : list jsstring :=
  if str_eqb (value before) (value after) then log
  else log ++ [value after].

Definition dispatch_hosted (destLang : LANGUAGE_CODE) (e : event) (h : hosted)
  : option hosted :=
  match dispatch destLang e (inner h) with
  | Some w' =>
      Some (mkHosted w' (valueEffect (st (inner h)) (st w') (notified h)))
  | None => None
  end.

Fixpoint run_hosted (destLang : LANGUAGE_CODE) (evs : list event) (h : hosted)
  : option hosted :=
  match evs with
  | [] => Some h
  | e :: rest =>
      match dispatch_hosted destLang e h with
      | Some h' => run_hosted destLang rest h'
      | None => None
      end
  end.

(** ** The rendered list

    [suggestion.map((el, idx) => <li className={idx === selectedSuggestion ?
    'selected' : ''}>{el}</li>)]: the text of each entry and whether it
    carries the class [selected]. *)

Fixpoint render_from (idx : Z) (l : list jsstring) (selected : Z)
  : list (jsstring * bool) :=
  match l with
  | [] => []
  | el :: rest => (el, idx =? selected) :: render_from (idx + 1) rest selected
  end.

Definition render_suggestions (s : state) : list (jsstring * bool) :=
  render_from 0 (suggestion s) (selectedSuggestion s).

(** * Vocabulary of the specification *)

(** The spec's [value[0:cursorPosition]] and [value[cursorPosition:]]. *)
Definition value_before_cursor (s : state) : jsstring :=
  firstn (Z.to_nat (cursorPosition s)) (value s).
Definition value_after_cursor (s : state) : jsstring :=
  skipn (Z.to_nat (cursorPosition s)) (value s).

(** The commit splice of the spec, for candidate [c] chosen at [idx]. *)
Definition commit_splice (s : state) (idx : Z) (c : jsstring) : Prop :=
  value (selectSuggestion idx s)
  = value_before_cursor s ++ c ++ lit " " ++ value_after_cursor s
  /\ cursorPosition (selectSuggestion idx s)
     = cursorPosition s + str_length c + 1.

Definition is_arrow (e : key_event) : Prop :=
  key e = lit "ArrowDown" \/ key e = lit "ArrowUp".

(** [selectedIndex] lies in [[0, length(suggestions) - 1]]. *)
Definition selection_in_range (s : state) : Prop :=
  0 <= selectedSuggestion s <= arr_length (suggestion s) - 1.

(** The invariant of the spec's data model:
    [0 <= selectedIndex < max(1, length(suggestions))]. *)
Definition selection_valid (s : state) : Prop :=
  0 <= selectedSuggestion s < Z.max 1 (arr_length (suggestion s)).

(** An arrow key moves the selection by at most one step, and only towards
    an index that exists. *)
Definition arrow_move (s s' : state) : Prop :=
  suggestion s' = suggestion s
  /\ (selectedSuggestion s' = selectedSuggestion s
      \/ (selectedSuggestion s' = selectedSuggestion s + 1
          /\ selectedSuggestion s < arr_length (suggestion s) - 1)
      \/ (selectedSuggestion s' = selectedSuggestion s - 1
          /\ selectedSuggestion s > 0)).

(** A sequence of key-up events, handled one after the other. *)
Definition keyUps (ks : list key_event) (s : state) : state :=
  fold_left (fun acc e => onKeyUp e acc) ks s.

(** "The character immediately before the new cursor position is
    alphanumeric", read off the reported value directly. *)
Definition alnum_before_cursor (c : change_event) : bool :=
  match index (ev_value c) (selectionStart c - 1) with
  | Some u => alnum_unit u
  | None => false
  end.

(** C4 as the spec words it: the reported value is adopted in any case, and
    only the recorded cursor differs when the character before it is
    alphanumeric. *)
Definition change_adopted_with_retreat (s : state) (c : change_event) : Prop :=
  value (onChange c s) = ev_value c
  /\ cursorPosition (onChange c s)
     = if alnum_before_cursor c then selectionEnd c - 1 else selectionEnd c.

(** The valid response shape in the spec's words: an array of length at
    least 2 whose element 0 is the literal ['SUCCESS'] and whose element 1 is
    a non-empty array, the first entry of which is an array
    [[original, alternatives]] of length at least 2. *)
Definition valid_shape (data : json) : bool :=
  match data with
  | JArr (JStr marker :: JArr (JArr (_ :: _ :: _) :: _) :: _) =>
      str_eqb marker (lit "SUCCESS")
  | _ => false
  end.

(** A response of the valid shape whose [alternatives] entry is [null]. *)
Definition null_alternatives : json :=
  JArr [JStr (lit "SUCCESS"); JArr [JArr [JStr (lit "namaste"); JNull]]].

(** How a handler other than [onChange] moves the cursor: not at all, or by
    a commit. *)
Definition cursor_follows (s s' : state) : Prop :=
  (value s' = value s /\ cursorPosition s' = cursorPosition s)
  \/ (exists c : jsstring,
        value s' = value_before_cursor s ++ c ++ lit " " ++ value_after_cursor s
        /\ cursorPosition s' = cursorPosition s + str_length c + 1).

(** The invariant of the spec's data model. *)
Definition cursor_in_range (s : state) : Prop :=
  0 <= cursorPosition s <= str_length (value s).

(** A native change in which the character before the start of the reported
    selection ([selectionStart]) is alphanumeric. *)
Definition retreating (e : event) : bool :=
  match e with
  | Change c => alnum_before_cursor c
  | _ => false
  end.

(** Every request issued so far asked about a non-empty word, and the armed
    debounce timer, if any, carries the current, non-empty typed word. *)
Definition fetch_words_nonempty (w : widget) : Prop :=
  Forall (fun r => req_text r <> []) (requests w)
  /\ (forall word : jsstring,
        pending w = Some word -> word <> [] /\ word = typedWord (st w)).

(** The composition cells fit together: the typed word is made of
    alphanumeric code units, the selection is not negative, and with the
    popup hidden nothing is typed and nothing is selected. *)
Definition composition_wellformed (s : state) : Prop :=
  Forall (fun u => alnum_unit u = true) (typedWord s)
  /\ 0 <= selectedSuggestion s
  /\ (showSuggestion s = DISPLAY_NONE ->
      typedWord s = [] /\ selectedSuggestion s = 0).

(** A request as [debouncedSearch] builds it for an alphanumeric word. *)
Definition request_wellformed (destLang : LANGUAGE_CODE) (r : request) : Prop :=
  req_text r <> []
  /\ Forall (fun u => alnum_unit u = true) (req_text r)
  /\ req_url r = request_url destLang (req_text r).

(** The cells a key event may touch besides the flag and its timers. *)
Definition same_cells (s s' : state) : Prop :=
  value s' = value s /\ typedWord s' = typedWord s
  /\ suggestion s' = suggestion s /\ showSuggestion s' = showSuggestion s
  /\ selectedSuggestion s' = selectedSuggestion s
  /\ cursorPosition s' = cursorPosition s.

(** The keys the control-key handler acts on. *)
Definition control_key (k : jsstring) : bool :=
  str_eqb k (lit "ArrowDown") || str_eqb k (lit "ArrowUp")
  || str_eqb k (lit "Enter") || str_eqb k (lit " ")
  || str_eqb k (lit "Backspace").

(** An unsuppressed key-up of one alphanumeric character. *)
Definition plain_alnum (e : key_event) : Prop :=
  isAplhaNumeric (key e) = true /\ ev_metaKey e = false.

(** The characters of a sequence of key events, in order. *)
Definition typed (ks : list key_event) : jsstring :=
  List.concat (map key ks).

(** A log in which each entry differs from the one before it. *)
Fixpoint changes_only (log : list jsstring) : Prop :=
  match log with
  | a :: (b :: _) as rest => a <> b /\ changes_only rest
  | _ => True
  end.

(** The commit has inserted candidate [c] and a space at the cursor. *)
Definition inserted_candidate (s s' : state) (c : jsstring) : Prop :=
  In c (suggestion s) /\ c <> []
  /\ value s' = value_before_cursor s ++ c ++ lit " " ++ value_after_cursor s.

(** The candidates a fetch result would store are all strings, as the
    declared type [string[]] of the [suggestion] cell has it; an event that
    is no fetch result, or one that stores nothing, passes. *)
Definition string_candidates (e : event) : bool :=
  match e with
  | FetchResolved data =>
      match searchResponse data with
      | SetSuggestion l =>
          match as_strings l with
          | Some _ => true
          | None => false
          end
      | Return | Throw => true
      end
  | _ => true
  end.

(** * Properties *)

(** ** Strings and arrays *)

Lemma str_eqb_eq (a b : jsstring) : str_eqb a b = true <-> a = b.
Proof.
  revert b; induction a as [|x a IH]; intros [|y b]; simpl; split;
    try congruence; try reflexivity.
  - intros H. apply andb_true_iff in H as [Hx Hr].
    apply N.eqb_eq in Hx. apply IH in Hr. congruence.
  - intros H. injection H as -> ->. rewrite N.eqb_refl. simpl.
    now apply IH.
Qed.

Lemma str_eqb_refl (a : jsstring) : str_eqb a a = true.
Proof. now apply str_eqb_eq. Qed.

Lemma truthy_nonempty (s : jsstring) : truthy s = true <-> s <> [].
Proof. destruct s; simpl; split; congruence. Qed.

Lemma str_length_nonneg (s : jsstring) : 0 <= str_length s.
Proof. unfold str_length; lia. Qed.

Lemma str_length_app (a b : jsstring) :
  str_length (a ++ b) = str_length a + str_length b.
Proof. unfold str_length. rewrite length_app. lia. Qed.

Lemma index_out_of_range {A : Type} (a : list A) (i : Z) :
  i < 0 \/ arr_length a <= i -> index a i = None.
Proof.
  unfold index, arr_length. intros [H|H].
  - apply Z.ltb_lt in H. now rewrite H.
  - destruct (i <? 0); [reflexivity|].
    apply nth_error_None. lia.
Qed.

Lemma index_in_range {A : Type} (a : list A) (i : Z) (x : A) :
  index a i = Some x -> 0 <= i < arr_length a.
Proof.
  unfold index, arr_length. destruct (i <? 0) eqn:E; [discriminate|].
  intros H. apply Z.ltb_ge in E.
  assert (Hn : nth_error a (Z.to_nat i) <> None) by congruence.
  apply nth_error_Some in Hn. lia.
Qed.

(** [substring(0, n)] is the prefix of [n] code units, for every integer. *)
Lemma substring_prefix (s : jsstring) (n : Z) :
  substring s 0 n = firstn (Z.to_nat n) s.
Proof.
  unfold substring.
  pose proof (str_length_nonneg s) as Hlen.
  set (len := str_length s) in *.
  replace (Z.min (Z.max 0 0) len) with 0 by lia.
  replace (Z.min 0 (Z.min (Z.max n 0) len)) with 0 by lia.
  replace (Z.max 0 (Z.min (Z.max n 0) len)) with (Z.min (Z.max n 0) len) by lia.
  rewrite Z.sub_0_r. simpl skipn.
  destruct (Z_le_gt_dec n len) as [Hle|Hgt].
  - f_equal. lia.
  - rewrite !firstn_all2; [reflexivity| |]; unfold len, str_length in *; lia.
Qed.

(** [substring(n, length)] is the rest after [n] code units. *)
Lemma substring_suffix (s : jsstring) (n : Z) :
  substring s n (str_length s) = skipn (Z.to_nat n) s.
Proof.
  unfold substring.
  pose proof (str_length_nonneg s) as Hlen.
  set (len := str_length s) in *.
  replace (Z.min (Z.max len 0) len) with len by lia.
  set (fs := Z.min (Z.max n 0) len).
  replace (Z.min fs len) with fs by lia.
  replace (Z.max fs len) with len by lia.
  rewrite firstn_all2.
  - destruct (Z_le_gt_dec n len) as [Hle|Hgt].
    + f_equal. lia.
    + rewrite !skipn_all2; [reflexivity| |]; unfold fs, len, str_length in *; lia.
  - rewrite length_skipn. unfold fs, len, str_length in *. lia.
Qed.

(** [slice(0, -1)] drops the last code unit. *)
Lemma slice_drop_last (s : jsstring) : slice s 0 (Some (-1)) = removelast s.
Proof.
  unfold slice.
  change (0 <? 0) with false. change (-1 <? 0) with true. cbv iota.
  pose proof (str_length_nonneg s) as Hlen.
  replace (Z.min 0 (str_length s)) with 0 by lia.
  rewrite Z.sub_0_r. simpl skipn.
  rewrite removelast_firstn_len. f_equal.
  unfold str_length in *. lia.
Qed.

Lemma removelast_str_length (s : jsstring) :
  s <> [] -> str_length (removelast s) = str_length s - 1.
Proof.
  intros H. destruct (exists_last H) as [p [x ->]].
  rewrite removelast_last. rewrite str_length_app. unfold str_length. simpl. lia.
Qed.

Lemma firstn_one_skipn {A : Type} (l : list A) (k : nat) :
  firstn 1 (skipn k l)
  = match nth_error l k with Some x => [x] | None => [] end.
Proof.
  revert l; induction k as [|k IH]; intros [|a l]; simpl; try reflexivity.
  apply IH.
Qed.

(** [slice(-1)] keeps the last code unit, if there is one. *)
Lemma slice_last_unit (s : jsstring) :
  slice s (-1) None
  = match nth_error s (Nat.pred (List.length s)) with
    | Some x => [x]
    | None => []
    end.
Proof.
  unfold slice. change (-1 <? 0) with true. cbv iota.
  destruct s as [|a s]; [reflexivity|].
  set (t := a :: s).
  assert (Hlen : str_length t = Z.of_nat (List.length t)) by reflexivity.
  assert (Hpos : (0 < List.length t)%nat) by (simpl; lia).
  replace (Z.to_nat (Z.max (str_length t + -1) 0)) with (Nat.pred (List.length t)) by lia.
  replace (Z.to_nat (Z.max (str_length t - Z.max (str_length t + -1) 0) 0)) with 1%nat by lia.
  apply firstn_one_skipn.
Qed.

(** ** Handlers: helper facts *)

Lemma state_eta (s : state) :
  mkState (value s) (typedWord s) (suggestion s) (showSuggestion s)
          (selectedSuggestion s) (cursorPosition s) (metaKey s) (metaTimers s)
  = s.
Proof. now destruct s. Qed.

Lemma widget_eta (w : widget) :
  mkWidget (st w) (pending w) (inflight w) (requests w) = w.
Proof. now destruct w. Qed.

Lemma typedWordEffect_same (s s' : state) (p : option jsstring) :
  typedWord s' = typedWord s -> typedWordEffect s s' p = p.
Proof. intros H. unfold typedWordEffect. now rewrite H, str_eqb_refl. Qed.

(** A commit that finds nothing to insert is just a clear. *)
Lemma selectSuggestion_nothing (idx : Z) (s : state) :
  index (suggestion s) idx = None \/ index (suggestion s) idx = Some [] ->
  selectSuggestion idx s = clearSuggestion s.
Proof. unfold selectSuggestion. now intros [-> | ->]. Qed.

Lemma selectSuggestion_candidate (idx : Z) (s : state) (c : jsstring) :
  index (suggestion s) idx = Some c -> c <> [] ->
  selectSuggestion idx s
  = clearSuggestion
      (setCursorPosition (cursorPosition s + str_length c + 1)
         (setValue (substring (value s) 0 (cursorPosition s) ++ c ++ lit " "
                    ++ substring (value s) (cursorPosition s)
                         (str_length (value s))) s)).
Proof.
  intros Hc Hne. unfold selectSuggestion. rewrite Hc.
  apply truthy_nonempty in Hne. now rewrite Hne.
Qed.

(** ** Commit *)

Lemma selectSuggestion_splices (s : state) (idx : Z) (c : jsstring) :
  index (suggestion s) idx = Some c -> c <> [] -> commit_splice s idx c.
Proof.
  intros Hfound Hnonempty. unfold commit_splice.
  rewrite (selectSuggestion_candidate idx s c Hfound Hnonempty).
  unfold value_before_cursor, value_after_cursor.
  rewrite substring_prefix, substring_suffix. now split.
Qed.

(** C1 (as amended): committing a non-empty candidate [c] found at [idx] in
    the suggestions turns the value into
    [value[0:cursorPosition] + c + " " + value[cursorPosition:]] and moves the
    cursor to [cursorPosition + length(c) + 1]; the composition state is
    cleared. *)
Theorem commit_splices_nonempty_candidate
  (s : state) (idx : Z) (c : jsstring)
  (Hfound : index (suggestion s) idx = Some c) (Hnonempty : c <> []) :
  commit_splice s idx c
  /\ typedWord (selectSuggestion idx s) = []
  /\ suggestion (selectSuggestion idx s) = []
  /\ selectedSuggestion (selectSuggestion idx s) = 0
  /\ showSuggestion (selectSuggestion idx s) = DISPLAY_NONE.
Proof.
  split; [now apply selectSuggestion_splices|].
  rewrite (selectSuggestion_candidate idx s c Hfound Hnonempty).
  simpl. tauto.
Qed.

Lemma commit_splices_nonempty_candidate_witness :
  let s := mkState (lit "ab cd") (lit "x") [lit "y"; lit "x"] DISPLAY_BLOCK 0
                   3 false 0 in
  index (suggestion s) 0 = Some (lit "y") /\ lit "y" <> []
  /\ value (selectSuggestion 0 s) = lit "ab y cd"
  /\ cursorPosition (selectSuggestion 0 s) = 5.
Proof.
  intros s.
  assert (Hfound : index (suggestion s) 0 = Some (lit "y")) by reflexivity.
  assert (Hne : lit "y" <> []) by discriminate.
  destruct (commit_splices_nonempty_candidate s 0 (lit "y") Hfound Hne)
    as [[Hv Hc] _].
  exact (conj Hfound (conj Hne (conj Hv Hc))).
Defined.

(** C1 as stated fails for a candidate that is the empty string: the guard
    [if(selectedValue)] skips the splice, so no space is inserted. *)
Lemma commit_empty_candidate_not_spliced :
  let s := mkState (lit "ab cd") (lit "x") [[]; lit "x"] DISPLAY_BLOCK 0
                   3 false 0 in
  index (suggestion s) 0 = Some []
  /\ value (selectSuggestion 0 s) = lit "ab cd"
  /\ cursorPosition (selectSuggestion 0 s) = 3
  /\ ~ commit_splice s 0 [].
Proof.
  intros s. repeat split; try reflexivity.
  intros [Hv _]. vm_compute in Hv. discriminate.
Qed.

(** C8: a commit at an index that is out of range, or where the entry is the
    empty string, leaves value and cursor position as they were and clears
    the composition state. *)
Theorem commit_without_candidate_only_clears
  (s : state) (idx : Z)
  (Hnone : (idx < 0 \/ arr_length (suggestion s) <= idx)
           \/ index (suggestion s) idx = Some []) :
  value (selectSuggestion idx s) = value s
  /\ cursorPosition (selectSuggestion idx s) = cursorPosition s
  /\ typedWord (selectSuggestion idx s) = []
  /\ suggestion (selectSuggestion idx s) = []
  /\ selectedSuggestion (selectSuggestion idx s) = 0
  /\ showSuggestion (selectSuggestion idx s) = DISPLAY_NONE.
Proof.
  rewrite selectSuggestion_nothing.
  - simpl. tauto.
  - destruct Hnone as [Hout | Hempty]; [left | now right].
    now apply index_out_of_range.
Qed.

Lemma commit_without_candidate_only_clears_witness :
  let s := mkState (lit "ab cd") (lit "x") [lit "y"] DISPLAY_BLOCK 4
                   3 false 0 in
  ((4 < 0 \/ arr_length (suggestion s) <= 4)
   \/ index (suggestion s) 4 = Some [])
  /\ value (selectSuggestion 4 s) = lit "ab cd"
  /\ cursorPosition (selectSuggestion 4 s) = 3
  /\ showSuggestion (selectSuggestion 4 s) = DISPLAY_NONE.
Proof.
  intros s.
  assert (H : (4 < 0 \/ arr_length (suggestion s) <= 4)
              \/ index (suggestion s) 4 = Some []).
  { left. right. vm_compute. discriminate. }
  destruct (commit_without_candidate_only_clears s 4 H)
    as (Hv & Hc & _ & _ & _ & Hs).
  exact (conj H (conj Hv (conj Hc Hs))).
Defined.

(** ** Control keys *)

Lemma handleNonAlphaKeyPress_ArrowDown (s : state) :
  handleNonAlphaKeyPress (lit "ArrowDown") s
  = setSelectedSuggestion
      (if selectedSuggestion s <? arr_length (suggestion s) - 1
       then selectedSuggestion s + 1 else selectedSuggestion s) s.
Proof. reflexivity. Qed.

Lemma handleNonAlphaKeyPress_ArrowUp (s : state) :
  handleNonAlphaKeyPress (lit "ArrowUp") s
  = setSelectedSuggestion
      (if selectedSuggestion s >? 0
       then selectedSuggestion s - 1 else selectedSuggestion s) s.
Proof. reflexivity. Qed.

Lemma handleNonAlphaKeyPress_Backspace (s : state) :
  handleNonAlphaKeyPress (lit "Backspace") s
  = if truthy (typedWord s)
    then setTypedWord (slice (typedWord s) 0 (Some (-1))) s
    else clearSuggestion s.
Proof.
  change (handleNonAlphaKeyPress (lit "Backspace") s)
    with (if truthy (typedWord s)
          then setTypedWord (if truthy (typedWord s)
                             then slice (typedWord s) 0 (Some (-1))
                             else typedWord s) s
          else clearSuggestion s).
  now destruct (truthy (typedWord s)).
Qed.

(** A key-up that is not suppressed, not alphanumeric, and arrives while the
    popup is shown goes to the control-key handler. *)
Lemma onKeyUp_control (e : key_event) (s : state) :
  ev_metaKey e = false -> str_eqb (key e) (lit "Meta") = false ->
  metaKey s = false -> isAplhaNumeric (key e) = false ->
  showSuggestion s = DISPLAY_BLOCK ->
  onKeyUp e s = handleNonAlphaKeyPress (key e) s.
Proof.
  intros Hm Hk Hf Ha Hs. unfold onKeyUp.
  now rewrite Hm, Hk, Hf, Ha, Hs.
Qed.

(** C5: Backspace while the popup is shown.  A non-empty typed word loses its
    last character (length L becomes L-1) and the popup stays open; with an
    empty typed word the composition state is cleared and the popup hidden.
    This is what a Backspace key-up does whenever it reaches the control-key
    handler, that is, when no modifier suppresses it. *)
Theorem backspace_semantics
  (s : state) (Hvisible : showSuggestion s = DISPLAY_BLOCK) :
  let s' := handleNonAlphaKeyPress (lit "Backspace") s in
  (typedWord s <> [] ->
     typedWord s' = removelast (typedWord s)
     /\ str_length (typedWord s') = str_length (typedWord s) - 1
     /\ showSuggestion s' = DISPLAY_BLOCK
     /\ suggestion s' = suggestion s
     /\ selectedSuggestion s' = selectedSuggestion s
     /\ value s' = value s
     /\ cursorPosition s' = cursorPosition s)
  /\ (typedWord s = [] ->
        typedWord s' = [] /\ suggestion s' = []
        /\ selectedSuggestion s' = 0 /\ showSuggestion s' = DISPLAY_NONE)
  /\ (forall e : key_event,
        key e = lit "Backspace" -> ev_metaKey e = false ->
        metaKey s = false -> onKeyUp e s = s').
Proof.
  intros s'. unfold s'. rewrite handleNonAlphaKeyPress_Backspace.
  split; [|split].
  - intros Hne. pose proof Hne as Ht. apply truthy_nonempty in Ht.
    rewrite Ht. simpl. rewrite slice_drop_last.
    rewrite removelast_str_length by assumption. tauto.
  - intros Hempty. rewrite Hempty. simpl. tauto.
  - intros e Hk Hm Hf.
    rewrite onKeyUp_control; try assumption.
    + rewrite Hk. apply handleNonAlphaKeyPress_Backspace.
    + now rewrite Hk.
    + now rewrite Hk.
Qed.

Lemma backspace_semantics_witness :
  let s := mkState (lit "ab ") (lit "nam") [lit "x"] DISPLAY_BLOCK 0 3
                   false 0 in
  showSuggestion s = DISPLAY_BLOCK
  /\ typedWord (onKeyUp (mkKey (lit "Backspace") false) s) = lit "na"
  /\ showSuggestion (onKeyUp (mkKey (lit "Backspace") false) s)
     = DISPLAY_BLOCK.
Proof.
  intros s.
  assert (Hvis : showSuggestion s = DISPLAY_BLOCK) by reflexivity.
  destruct (backspace_semantics s Hvis) as (Hnonempty & _ & Hkey).
  assert (Hne : typedWord s <> []) by discriminate.
  destruct (Hnonempty Hne) as (Hw & _ & Hshow & _).
  rewrite (Hkey (mkKey (lit "Backspace") false) eq_refl eq_refl eq_refl).
  exact (conj Hvis (conj Hw Hshow)).
Defined.

(** ** Selection *)

Lemma arrow_handler_move (k : jsstring) (s : state) :
  k = lit "ArrowDown" \/ k = lit "ArrowUp" ->
  arrow_move s (handleNonAlphaKeyPress k s).
Proof.
  unfold arrow_move. intros [-> | ->].
  - rewrite handleNonAlphaKeyPress_ArrowDown. simpl.
    destruct (Z.ltb_spec (selectedSuggestion s) (arr_length (suggestion s) - 1));
      split; auto.
  - rewrite handleNonAlphaKeyPress_ArrowUp. simpl.
    destruct (Z.gtb_spec (selectedSuggestion s) 0); split; auto.
    right. right. split; [reflexivity | lia].
Qed.

Lemma arrow_keyUp_move (e : key_event) (s : state) :
  is_arrow e -> arrow_move s (onKeyUp e s).
Proof.
  intros Harrow. unfold onKeyUp.
  destruct (ev_metaKey e || str_eqb (key e) (lit "Meta"));
    [split; auto|].
  destruct (metaKey s); [split; auto|].
  assert (Ha : isAplhaNumeric (key e) = false)
    by (destruct Harrow as [-> | ->]; reflexivity).
  rewrite Ha.
  destruct (display_eqb (showSuggestion s) DISPLAY_NONE); [split; auto|].
  now apply arrow_handler_move.
Qed.

Lemma arrow_move_in_range (s s' : state) :
  arrow_move s s' -> selection_in_range s -> selection_in_range s'.
Proof. unfold arrow_move, selection_in_range. intros [-> H] Hr. lia. Qed.

Lemma arrow_move_valid (s s' : state) :
  arrow_move s s' -> selection_valid s -> selection_valid s'.
Proof. unfold arrow_move, selection_valid. intros [-> H] Hr. lia. Qed.

(** C6: no sequence of ArrowDown/ArrowUp key events moves [selectedIndex] out
    of [[0, length(suggestions) - 1]], whatever the suggestions are (with no
    suggestions at all it stays within [0 <= selectedIndex < 1]); ArrowDown
    at the last index and ArrowUp at index 0 change nothing. *)
Theorem arrows_keep_selection_in_range
  (ks : list key_event) (s : state) (Harrows : Forall is_arrow ks) :
  suggestion (keyUps ks s) = suggestion s
  /\ (selection_in_range s -> selection_in_range (keyUps ks s))
  /\ (selection_valid s -> selection_valid (keyUps ks s))
  /\ (forall s0 : state,
        selectedSuggestion s0 = arr_length (suggestion s0) - 1 ->
        handleNonAlphaKeyPress (lit "ArrowDown") s0 = s0)
  /\ (forall s0 : state,
        selectedSuggestion s0 = 0 ->
        handleNonAlphaKeyPress (lit "ArrowUp") s0 = s0).
Proof.
  assert (Hrun : suggestion (keyUps ks s) = suggestion s
                 /\ (selection_in_range s -> selection_in_range (keyUps ks s))
                 /\ (selection_valid s -> selection_valid (keyUps ks s))).
  { revert s. induction Harrows as [|e ks He _ IH]; intros s.
    - split; [reflexivity | split; intros H; exact H].
    - pose proof (arrow_keyUp_move e s He) as Hmove.
      destruct (IH (onKeyUp e s)) as (Hs & Hr & Hv).
      change (keyUps (e :: ks) s) with (keyUps ks (onKeyUp e s)).
      split; [|split].
      + rewrite Hs. exact (proj1 Hmove).
      + intros H. apply Hr. exact (arrow_move_in_range s _ Hmove H).
      + intros H. apply Hv. exact (arrow_move_valid s _ Hmove H). }
  destruct Hrun as (Hs & Hr & Hv).
  split; [exact Hs|]. split; [exact Hr|]. split; [exact Hv|]. split.
  - intros s0 Hlast. rewrite handleNonAlphaKeyPress_ArrowDown.
    rewrite Hlast, Z.ltb_irrefl. rewrite <- Hlast. apply state_eta.
  - intros s0 Hzero. rewrite handleNonAlphaKeyPress_ArrowUp.
    rewrite Hzero. simpl. rewrite <- Hzero. apply state_eta.
Qed.

Lemma arrows_keep_selection_in_range_witness :
  let s := mkState [] (lit "na") [lit "x"; lit "y"; lit "na"] DISPLAY_BLOCK
                   1 0 false 0 in
  let down := mkKey (lit "ArrowDown") false in
  let up := mkKey (lit "ArrowUp") false in
  Forall is_arrow [down; down; down; up] /\ selection_in_range s
  /\ selection_in_range (keyUps [down; down; down; up] s)
  /\ selectedSuggestion (keyUps [down; down; down; up] s) = 1.
Proof.
  intros s down up.
  assert (Hks : Forall is_arrow [down; down; down; up]).
  { repeat (apply Forall_cons;
            [first [left; reflexivity | right; reflexivity]|]).
    apply Forall_nil. }
  assert (Hr : selection_in_range s) by (unfold selection_in_range; simpl; lia).
  destruct (arrows_keep_selection_in_range [down; down; down; up] s Hks)
    as (_ & Hin & _).
  exact (conj Hks (conj Hr (conj (Hin Hr) eq_refl))).
Defined.

(** ** Modifier suppression *)

(** C9: an alphanumeric key-up handled while the suppression flag
    ([metaKey.current]) is set leaves the typed word and the rest of the
    composition state as they were; the flag stays set and nothing is
    scheduled for the search. *)
Theorem suppressed_alphanumeric_key_ignored
  (destLang : LANGUAGE_CODE) (e : key_event) (w : widget)
  (Halnum : isAplhaNumeric (key e) = true)
  (Hflag : metaKey (st w) = true) :
  let s' := onKeyUp e (st w) in
  typedWord s' = typedWord (st w)
  /\ suggestion s' = suggestion (st w)
  /\ selectedSuggestion s' = selectedSuggestion (st w)
  /\ showSuggestion s' = showSuggestion (st w)
  /\ value s' = value (st w)
  /\ cursorPosition s' = cursorPosition (st w)
  /\ metaKey s' = true
  /\ dispatch destLang (KeyUp e) w
     = Some (mkWidget s' (pending w) (inflight w) (requests w)).
Proof.
  intros s'.
  assert (Hs : s' = st w \/ s' = setMetaTimers (S (metaTimers (st w))) (st w)).
  { unfold s', onKeyUp.
    destruct (ev_metaKey e || str_eqb (key e) (lit "Meta")); [now right|].
    rewrite Hflag. now left. }
  assert (Hw : typedWord s' = typedWord (st w))
    by (destruct Hs as [-> | ->]; reflexivity).
  repeat match goal with |- _ /\ _ => split end;
    try (destruct Hs as [-> | ->]; simpl; congruence).
  simpl. unfold handle. fold s'. now rewrite typedWordEffect_same.
Qed.

Lemma suppressed_alphanumeric_key_ignored_witness :
  let w := mkWidget (mkState (lit "ab ") (lit "n") [] DISPLAY_BLOCK 0 3
                             true 0)
                    (Some (lit "n")) 0 [] in
  let e := mkKey (lit "v") false in
  isAplhaNumeric (key e) = true /\ metaKey (st w) = true
  /\ typedWord (onKeyUp e (st w)) = lit "n".
Proof.
  intros w e.
  assert (Ha : isAplhaNumeric (key e) = true) by reflexivity.
  assert (Hf : metaKey (st w) = true) by reflexivity.
  destruct (suppressed_alphanumeric_key_ignored HINDI e w Ha Hf) as (Hw & _).
  exact (conj Ha (conj Hf Hw)).
Defined.

(** ** Native change events *)

(** C7: a native change event that fires while the popup is shown is
    rejected: the handler returns the state as it was, and the widget as a
    whole (armed timer, pending fetches) is unchanged too. *)
Theorem native_change_rejected_while_popup_shown
  (destLang : LANGUAGE_CODE) (c : change_event) (w : widget)
  (Hvisible : showSuggestion (st w) = DISPLAY_BLOCK) :
  onChange c (st w) = st w /\ dispatch destLang (Change c) w = Some w.
Proof.
  assert (H : onChange c (st w) = st w).
  { unfold onChange. now rewrite Hvisible. }
  split; [exact H|].
  simpl. unfold handle. rewrite H.
  rewrite typedWordEffect_same by reflexivity. now rewrite widget_eta.
Qed.

Lemma native_change_rejected_while_popup_shown_witness :
  let w := mkWidget (mkState (lit "ab ") (lit "n") [] DISPLAY_BLOCK 0 3
                             false 0)
                    (Some (lit "n")) 0 [] in
  showSuggestion (st w) = DISPLAY_BLOCK
  /\ dispatch HINDI (Change (mkChange (lit "ab n") 4 4)) w = Some w.
Proof.
  intros w.
  assert (Hvis : showSuggestion (st w) = DISPLAY_BLOCK) by reflexivity.
  exact (conj Hvis
           (proj2 (native_change_rejected_while_popup_shown
                     HINDI (mkChange (lit "ab n") 4 4) w Hvis))).
Defined.

(** The handler's test on [lastChar] is that reading, for a selection the
    text area can report. *)
Lemma lastChar_alnum (c : change_event) :
  wf_change c ->
  isAplhaNumeric
    (slice (substring (ev_value c) 0 (selectionStart c)) (-1) None)
  = alnum_before_cursor c.
Proof.
  intros (H0 & Hse & Hlen). unfold alnum_before_cursor, index.
  rewrite substring_prefix, slice_last_unit.
  unfold str_length in Hlen.
  rewrite length_firstn, nth_error_firstn.
  replace (Nat.min (Z.to_nat (selectionStart c)) (List.length (ev_value c)))
    with (Z.to_nat (selectionStart c)) by lia.
  destruct (Z.eq_dec (selectionStart c) 0) as [Hz | Hnz].
  - rewrite Hz. reflexivity.
  - replace (selectionStart c - 1 <? 0) with false by (symmetry; apply Z.ltb_ge; lia).
    replace (Nat.pred (Z.to_nat (selectionStart c)))
      with (Z.to_nat (selectionStart c - 1)) by lia.
    replace (Z.to_nat (selectionStart c - 1) <? Z.to_nat (selectionStart c))%nat
      with true by (symmetry; apply Nat.ltb_lt; lia).
    destruct (nth_error (ev_value c) (Z.to_nat (selectionStart c - 1)));
      reflexivity.
Qed.


(** C4 (as amended): a native change event arriving while the popup is hidden
    is adopted (reported value and reported cursor) when the character before
    the reported cursor is not alphanumeric; when it is alphanumeric the
    reported value is not adopted, the value stays as it was, and the
    recorded cursor is the reported cursor minus one.  Nothing else
    changes. *)
Theorem native_change_while_popup_hidden
  (s : state) (c : change_event)
  (Hhidden : showSuggestion s = DISPLAY_NONE) (Hwf : wf_change c) :
  let s' := onChange c s in
  (alnum_before_cursor c = false ->
     value s' = ev_value c /\ cursorPosition s' = selectionEnd c)
  /\ (alnum_before_cursor c = true ->
        value s' = value s /\ cursorPosition s' = selectionEnd c - 1)
  /\ typedWord s' = typedWord s
  /\ suggestion s' = suggestion s
  /\ selectedSuggestion s' = selectedSuggestion s
  /\ showSuggestion s' = DISPLAY_NONE
  /\ metaKey s' = metaKey s.
Proof.
  intros s'. unfold s', onChange.
  rewrite Hhidden, (lastChar_alnum c Hwf). simpl.
  destruct (alnum_before_cursor c); simpl;
    repeat match goal with |- _ /\ _ => split end;
    try reflexivity; try assumption; try discriminate; intros _; now split.
Qed.

Lemma native_change_while_popup_hidden_witness :
  let s := mkState (lit "ab") [] [] DISPLAY_NONE 0 2 false 0 in
  let c := mkChange (lit "ab ") 3 3 in
  showSuggestion s = DISPLAY_NONE /\ wf_change c
  /\ value (onChange c s) = lit "ab " /\ cursorPosition (onChange c s) = 3.
Proof.
  intros s c.
  assert (Hh : showSuggestion s = DISPLAY_NONE) by reflexivity.
  assert (Hwf : wf_change c) by (unfold wf_change, c; cbn; lia).
  destruct (native_change_while_popup_hidden s c Hh Hwf) as (Hpass & _).
  destruct (Hpass eq_refl) as [Hv Hc].
  exact (conj Hh (conj Hwf (conj Hv Hc))).
Defined.

(** C4 as stated fails when the character before the cursor is alphanumeric:
    the handler returns before [setValue], so the typed letter never reaches
    the value. *)
Lemma native_change_alnum_not_adopted :
  let s := mkState (lit "ab ") [] [] DISPLAY_NONE 0 3 false 0 in
  let c := mkChange (lit "ab n") 4 4 in
  showSuggestion s = DISPLAY_NONE /\ wf_change c
  /\ value (onChange c s) = lit "ab "
  /\ ~ change_adopted_with_retreat s c.
Proof.
  intros s c. split; [reflexivity|]. split; [unfold wf_change, c; cbn; lia|].
  split; [reflexivity|].
  intros [Hv _]. vm_compute in Hv. discriminate.
Qed.

(** ** Response validation *)

Lemma arr_length_lt_2 {A : Type} (x y : A) (r : list A) :
  (arr_length (x :: y :: r) <? 2) = false.
Proof. apply Z.ltb_ge. unfold arr_length. simpl List.length. lia. Qed.

Lemma arr_length_lt_1 {A : Type} (x : A) (r : list A) :
  (arr_length (x :: r) <? 1) = false.
Proof. apply Z.ltb_ge. unfold arr_length. simpl List.length. lia. Qed.

Lemma index_head {A : Type} (x : A) (l : list A) : index (x :: l) 0 = Some x.
Proof. reflexivity. Qed.

Lemma index_second {A : Type} (x y : A) (l : list A) :
  index (x :: y :: l) 1 = Some y.
Proof. reflexivity. Qed.

(** Evaluate the checks of [searchResponse] on a partly known response. *)
Ltac eval_checks :=
  unfold searchResponse, at_index;
  repeat (progress cbn [isArray elements strict_eq_string negb orb]
          || rewrite index_head || rewrite index_second
          || rewrite arr_length_lt_2 || rewrite arr_length_lt_1).

(** On a response of the valid shape the handler spreads [alternatives]. *)
Lemma searchResponse_valid_shape
  (original alternatives : json) (more rest1 rest0 : list json) :
  searchResponse
    (JArr (JStr (lit "SUCCESS")
           :: JArr (JArr (original :: alternatives :: more) :: rest1)
           :: rest0))
  = match spread alternatives with
    | Some items => SetSuggestion (items ++ [original])
    | None => Throw
    end.
Proof.
  eval_checks.
  change (str_eqb (lit "SUCCESS") (lit "SUCCESS")) with true.
  reflexivity.
Qed.

(** Alternatives that are an array come first, the original last. *)
Lemma searchResponse_alternatives_then_original
  (original : json) (alternatives more rest1 rest0 : list json) :
  searchResponse
    (JArr (JStr (lit "SUCCESS")
           :: JArr (JArr (original :: JArr alternatives :: more) :: rest1)
           :: rest0))
  = SetSuggestion (alternatives ++ [original]).
Proof. apply searchResponse_valid_shape. Qed.

(** Every response that is not of the valid shape is discarded by a plain
    [return]. *)
Lemma searchResponse_invalid_shape (data : json) :
  valid_shape data = false -> searchResponse data = Return.
Proof.
  intros H.
  destruct data as [| | | |l|]; try reflexivity.
  destruct l as [|x [|y r]]; try reflexivity.
  destruct x as [| | |marker| |]; try (eval_checks; reflexivity).
  eval_checks.
  destruct (str_eqb marker (lit "SUCCESS")) eqn:Hm; [|reflexivity].
  destruct y as [| | | |l1|]; try reflexivity.
  destruct l1 as [|z r1]; [reflexivity|].
  eval_checks.
  destruct z as [| | | |l2|]; try reflexivity.
  destruct l2 as [|o [|a r2]]; try reflexivity.
  simpl in H. congruence.
Qed.

(** The example of the spec: the original is appended last. *)
Example searchResponse_cafe :
  let cafe := [99; 97; 102; 233]%N in
  searchResponse
    (JArr [JStr (lit "SUCCESS");
           JArr [JArr [JStr cafe;
                       JArr [JStr (lit "coffee"); JStr (lit "kaffe")]]]])
  = SetSuggestion [JStr (lit "coffee"); JStr (lit "kaffe"); JStr cafe].
Proof. reflexivity. Qed.

Example searchResponse_failure :
  searchResponse (JArr [JStr (lit "FAILURE")]) = Return
  /\ searchResponse (JArr []) = Return
  /\ searchResponse (JStr (lit "SUCCESS")) = Return.
Proof. repeat split. Qed.

(** C2: the response [["SUCCESS", [["namaste", null]]]] passes every check
    of the handler, and the spread of [null] then throws: the suggestions are
    neither replaced by alternatives and original, nor is the response
    discarded by a plain return. *)
Theorem searchResponse_null_alternatives_throws :
  valid_shape null_alternatives = true
  /\ searchResponse null_alternatives = Throw.
Proof. split; reflexivity. Qed.

(** ** Runs of the widget *)

Section Runs.

Variable destLang : LANGUAGE_CODE.

(** Induction over a run: a property kept by every event (of some kind [Q])
    holds at the end. *)
Lemma run_invariant (Q : event -> Prop) (P : widget -> Prop) :
  (forall e w w', Q e -> dispatch destLang e w = Some w' -> P w -> P w') ->
  forall evs w w',
    Forall Q evs -> run destLang evs w = Some w' -> P w -> P w'.
Proof.
  intros Hstep evs. induction evs as [|e evs IH]; intros w w' HQ Hrun HP.
  - simpl in Hrun. now injection Hrun as <-.
  - simpl in Hrun. inversion HQ as [|? ? He Hrest]; subst.
    destruct (dispatch destLang e w) as [w1|] eqn:Hd; [|discriminate].
    apply (IH w1 w' Hrest Hrun). exact (Hstep e w w1 He Hd HP).
Qed.

(** What an event does to the component state. *)
Lemma dispatch_state (e : event) (w w' : widget) :
  dispatch destLang e w = Some w' ->
  match e with
  | KeyDown k => st w' = onKeyDown k (st w)
  | KeyUp k => st w' = onKeyUp k (st w)
  | Change c => st w' = onChange c (st w)
  | Click idx => st w' = selectSuggestion idx (st w)
  | MetaTimeout => st w' = metaTimeout (st w)
  | FetchResolved _ =>
      st w' = st w \/ exists l, st w' = setSuggestion l (st w)
  | DebounceElapsed | FetchRejected => st w' = st w
  end.
Proof.
  destruct e; simpl; intros H.
  - now injection H as <-.
  - now injection H as <-.
  - now injection H as <-.
  - destruct (showSuggestion (st w)); [discriminate|].
    destruct (index (suggestion (st w)) idx); [|discriminate].
    now injection H as <-.
  - destruct (metaTimers (st w)); [discriminate|]. now injection H as <-.
  - destruct (pending w) as [word|]; [|discriminate].
    injection H as <-. unfold debouncedSearch.
    now destruct (negb (truthy word)).
  - unfold settle in H. destruct (inflight w); [discriminate|].
    destruct (searchResponse data) as [l| |].
    + destruct (as_strings l) as [l'|]; [|discriminate].
      injection H as <-. right. now exists l'.
    + injection H as <-. now left.
    + injection H as <-. now left.
  - destruct (inflight w); [discriminate|]. now injection H as <-.
Qed.

End Runs.

(** ** Cursor position *)

Lemma selectSuggestion_cursor (idx : Z) (s : state) :
  cursor_follows s (selectSuggestion idx s).
Proof.
  destruct (index (suggestion s) idx) as [c|] eqn:Hc.
  - destruct c as [|u c'].
    + rewrite selectSuggestion_nothing by now right. now left.
    + right. exists (u :: c').
      assert (Hne : u :: c' <> []) by discriminate.
      exact (selectSuggestion_splices s idx (u :: c') Hc Hne).
  - rewrite selectSuggestion_nothing by now left. now left.
Qed.

Lemma handleNonAlphaKeyPress_cursor (k : jsstring) (s : state) :
  cursor_follows s (handleNonAlphaKeyPress k s).
Proof.
  unfold handleNonAlphaKeyPress.
  destruct (str_eqb k (lit "ArrowDown")); [now left|].
  destruct (str_eqb k (lit "ArrowUp")); [now left|].
  destruct (str_eqb k (lit "Enter")); [apply selectSuggestion_cursor|].
  destruct (str_eqb k (lit " ")); [apply selectSuggestion_cursor|].
  destruct (str_eqb k (lit "Backspace")); [|now left].
  destruct (truthy (typedWord s)); now left.
Qed.

Lemma onKeyUp_cursor (e : key_event) (s : state) :
  cursor_follows s (onKeyUp e s).
Proof.
  unfold onKeyUp.
  destruct (ev_metaKey e || str_eqb (key e) (lit "Meta")); [now left|].
  destruct (metaKey s); [now left|].
  destruct (isAplhaNumeric (key e)); [now left|].
  destruct (display_eqb (showSuggestion s) DISPLAY_NONE); [now left|].
  apply handleNonAlphaKeyPress_cursor.
Qed.

Lemma cursor_follows_nonneg (s s' : state) :
  cursor_follows s s' -> 0 <= cursorPosition s -> 0 <= cursorPosition s'.
Proof.
  intros [[_ Hc] | (c & _ & Hc)] H; rewrite Hc; [assumption|].
  pose proof (str_length_nonneg c). lia.
Qed.

Lemma cursor_follows_upper (s s' : state) :
  cursor_follows s s' ->
  cursorPosition s <= str_length (value s) ->
  cursorPosition s' <= str_length (value s').
Proof.
  intros [[Hv Hc] | (c & Hv & Hc)] H; rewrite Hv, Hc; [assumption|].
  unfold value_before_cursor, value_after_cursor.
  assert (Hl : str_length (firstn (Z.to_nat (cursorPosition s)) (value s))
               + str_length (skipn (Z.to_nat (cursorPosition s)) (value s))
               = str_length (value s))
    by (rewrite <- str_length_app; now rewrite firstn_skipn).
  rewrite !str_length_app. change (str_length (lit " ")) with 1. lia.
Qed.

(** Every event but a native change moves the cursor as a handler does. *)
Lemma dispatch_cursor_follows
  (destLang : LANGUAGE_CODE) (e : event) (w w' : widget) :
  dispatch destLang e w = Some w' ->
  (forall c, e <> Change c) ->
  cursor_follows (st w) (st w').
Proof.
  intros Hd Hnc. apply dispatch_state in Hd.
  destruct e; try (rewrite Hd; now left).
  - rewrite Hd. unfold onKeyDown. destruct (ev_metaKey e); now left.
  - rewrite Hd. apply onKeyUp_cursor.
  - now elim (Hnc e).
  - rewrite Hd. apply selectSuggestion_cursor.
  - destruct Hd as [-> | [l ->]]; now left.
Qed.

Lemma onChange_cursor_nonneg (c : change_event) (s : state) :
  wf_change c -> 0 <= cursorPosition s -> 0 <= cursorPosition (onChange c s).
Proof.
  intros Hwf H. unfold onChange.
  destruct (display_eqb (showSuggestion s) DISPLAY_BLOCK); [assumption|].
  rewrite (lastChar_alnum c Hwf).
  destruct (alnum_before_cursor c) eqn:Ha; simpl.
  - unfold alnum_before_cursor in Ha.
    destruct (index (ev_value c) (selectionStart c - 1)) eqn:Hi;
      [|discriminate].
    apply index_in_range in Hi. destruct Hwf as (_ & Hse & _). lia.
  - destruct Hwf as (? & ? & _). lia.
Qed.

Lemma onChange_upper (c : change_event) (s : state) :
  wf_change c -> alnum_before_cursor c = false ->
  cursorPosition s <= str_length (value s) ->
  cursorPosition (onChange c s) <= str_length (value (onChange c s)).
Proof.
  intros Hwf Ha H. unfold onChange.
  destruct (display_eqb (showSuggestion s) DISPLAY_BLOCK); [assumption|].
  rewrite (lastChar_alnum c Hwf), Ha. simpl. now destruct Hwf as (_ & _ & ?).
Qed.

Lemma dispatch_cursor_nonneg
  (destLang : LANGUAGE_CODE) (e : event) (w w' : widget) :
  wf_event e -> dispatch destLang e w = Some w' ->
  0 <= cursorPosition (st w) -> 0 <= cursorPosition (st w').
Proof.
  intros Hwf Hd H.
  destruct e;
    try (apply (cursor_follows_nonneg (st w)); [|assumption];
         apply (dispatch_cursor_follows destLang _ w w' Hd); discriminate).
  apply dispatch_state in Hd. rewrite Hd. now apply onChange_cursor_nonneg.
Qed.

Lemma dispatch_cursor_upper
  (destLang : LANGUAGE_CODE) (e : event) (w w' : widget) :
  wf_event e -> dispatch destLang e w = Some w' -> retreating e = false ->
  cursorPosition (st w) <= str_length (value (st w)) ->
  cursorPosition (st w') <= str_length (value (st w')).
Proof.
  intros Hwf Hd Hr H.
  destruct e;
    try (apply (cursor_follows_upper (st w)); [|assumption];
         apply (dispatch_cursor_follows destLang _ w w' Hd); discriminate).
  apply dispatch_state in Hd. rewrite Hd. now apply onChange_upper.
Qed.


(** The only responses the model leaves out are those that would store a
    value that is not a string. *)
Lemma settle_defined (destLang : LANGUAGE_CODE) (data : json) (w : widget) :
  dispatch destLang (FetchResolved data) w = None
  <-> inflight w = 0%nat \/ string_candidates (FetchResolved data) = false.
Proof.
  simpl. unfold settle.
  destruct (inflight w) as [|n].
  - split; intros _; [now left | reflexivity].
  - destruct (searchResponse data) as [l| |].
    + destruct (as_strings l); split.
      * discriminate.
      * intros [H | H]; discriminate H.
      * intros _. now right.
      * reflexivity.
    + split; [discriminate | intros [H | H]; discriminate H].
    + split; [discriminate | intros [H | H]; discriminate H].
Qed.




(** ** Fetches *)

(** The scenario of the spec: "namaste" is typed, the service answers, and
    Enter commits the first candidate followed by a space. *)
Example scenario_namaste :
  let word := [2344; 2350; 2360; 2381; 2340; 2375]%N in
  let response :=
    JArr [JStr (lit "SUCCESS");
          JArr [JArr [JStr (lit "namaste");
                      JArr [JStr word; JStr (word ++ lit "1")]]]] in
  let typing := map (fun u => KeyUp (mkKey [u] false)) (lit "namaste") in
  let after_fetch := run HINDI (typing ++ [DebounceElapsed;
                                            FetchResolved response]) mount in
  let after_enter := run HINDI (typing ++ [DebounceElapsed;
                                            FetchResolved response;
                                            KeyUp (mkKey (lit "Enter") false)])
                         mount in
  option_map (fun w => (suggestion (st w), map req_text (requests w)))
             after_fetch
  = Some ([word; word ++ lit "1"; lit "namaste"], [lit "namaste"])
  /\ option_map (fun w => (value (st w), typedWord (st w), suggestion (st w),
                           showSuggestion (st w)))
                after_enter
     = Some (word ++ lit " ", [], [], DISPLAY_NONE).
Proof. split; vm_compute; reflexivity. Qed.

Lemma handle_fetch_words (h : state -> state) (w : widget) :
  fetch_words_nonempty w -> fetch_words_nonempty (handle h w).
Proof.
  intros [Hreq Hpend]. split; [exact Hreq|].
  simpl. unfold typedWordEffect. intros word.
  destruct (str_eqb (typedWord (st w)) (typedWord (h (st w)))) eqn:Heq.
  - apply str_eqb_eq in Heq. rewrite <- Heq. apply Hpend.
  - destruct (truthy (typedWord (h (st w)))) eqn:Ht; [|discriminate].
    intros Hw. injection Hw as <-. split; [|reflexivity].
    now apply truthy_nonempty.
Qed.

Lemma dispatch_fetch_words
  (destLang : LANGUAGE_CODE) (e : event) (w w' : widget) :
  dispatch destLang e w = Some w' ->
  fetch_words_nonempty w -> fetch_words_nonempty w'.
Proof.
  intros Hd Hinv. destruct e; simpl in Hd.
  - injection Hd as <-. now apply handle_fetch_words.
  - injection Hd as <-. now apply handle_fetch_words.
  - injection Hd as <-. now apply handle_fetch_words.
  - destruct (showSuggestion (st w)); [discriminate|].
    destruct (index (suggestion (st w)) idx); [|discriminate].
    injection Hd as <-. now apply handle_fetch_words.
  - destruct (metaTimers (st w)); [discriminate|].
    injection Hd as <-. now apply handle_fetch_words.
  - destruct Hinv as [Hreq Hpend].
    destruct (pending w) as [word|] eqn:Hp; [|discriminate].
    destruct (Hpend word eq_refl) as [Hne _].
    injection Hd as <-. unfold debouncedSearch.
    apply truthy_nonempty in Hne. rewrite Hne. simpl. split.
    + apply Forall_app. split; [exact Hreq|].
      constructor; [|constructor]. simpl. now apply truthy_nonempty.
    + discriminate.
  - destruct Hinv as [Hreq Hpend]. unfold settle in Hd.
    destruct (inflight w); [discriminate|].
    destruct (searchResponse data) as [l| |].
    + destruct (as_strings l) as [l'|]; [|discriminate].
      injection Hd as <-. now split.
    + injection Hd as <-. now split.
    + injection Hd as <-. now split.
  - destruct Hinv as [Hreq Hpend].
    destruct (inflight w); [discriminate|]. injection Hd as <-. now split.
Qed.

Lemma reachable_fetch_words
  (destLang : LANGUAGE_CODE) (evs : list event) (w : widget) :
  run destLang evs mount = Some w -> fetch_words_nonempty w.
Proof.
  intros Hrun.
  apply (run_invariant destLang (fun _ => True) fetch_words_nonempty
           (fun e w0 w1 _ => dispatch_fetch_words destLang e w0 w1)
           evs mount w).
  - apply Forall_forall. intros; exact I.
  - exact Hrun.
  - split; [constructor | discriminate].
Qed.

(** An event that issues a request is the debounce timer firing with the
    current, non-empty typed word. *)
Lemma dispatch_requests
  (destLang : LANGUAGE_CODE) (e : event) (w w' : widget) :
  fetch_words_nonempty w -> dispatch destLang e w = Some w' ->
  requests w' = requests w
  \/ (e = DebounceElapsed /\ typedWord (st w) <> []
      /\ requests w'
         = requests w
           ++ [mkRequest (typedWord (st w))
                         (request_url destLang (typedWord (st w)))]).
Proof.
  intros [_ Hpend] Hd. destruct e; simpl in Hd;
    try (injection Hd as <-; now left).
  - destruct (showSuggestion (st w)); [discriminate|].
    destruct (index (suggestion (st w)) idx); [|discriminate].
    injection Hd as <-. now left.
  - destruct (metaTimers (st w)); [discriminate|].
    injection Hd as <-. now left.
  - destruct (pending w) as [word|] eqn:Hp; [|discriminate].
    destruct (Hpend word eq_refl) as [Hne Hw].
    injection Hd as <-. unfold debouncedSearch.
    pose proof Hne as Ht. apply truthy_nonempty in Ht. rewrite Ht. simpl.
    right. subst word. now repeat split.
  - unfold settle in Hd. destruct (inflight w); [discriminate|].
    destruct (searchResponse data) as [l| |].
    + destruct (as_strings l) as [l'|]; [|discriminate].
      injection Hd as <-. now left.
    + injection Hd as <-. now left.
    + injection Hd as <-. now left.
  - destruct (inflight w); [discriminate|]. injection Hd as <-. now left.
Qed.

(** C10: invoked with an empty word, the debounced search issues no request
    and changes nothing.  In every run of the widget each request issued
    asked about a non-empty word, the debounce timer is only ever armed with
    the current non-empty typed word, and the only event that issues a
    request is that timer firing while the typed word is non-empty. *)
Theorem fetch_only_for_nonempty_word
  (destLang : LANGUAGE_CODE) (evs : list event) (w : widget)
  (Hrun : run destLang evs mount = Some w) :
  (forall w0 : widget, debouncedSearch destLang [] w0 = w0)
  /\ Forall (fun r => req_text r <> []) (requests w)
  /\ (forall word : jsstring,
        pending w = Some word -> word <> [] /\ word = typedWord (st w))
  /\ (forall (e : event) (w' : widget),
        dispatch destLang e w = Some w' ->
        requests w' <> requests w ->
        e = DebounceElapsed /\ typedWord (st w) <> []
        /\ requests w'
           = requests w
             ++ [mkRequest (typedWord (st w))
                           (request_url destLang (typedWord (st w)))]).
Proof.
  pose proof (reachable_fetch_words destLang evs w Hrun) as Hinv.
  split; [reflexivity|].
  split; [exact (proj1 Hinv)|]. split; [exact (proj2 Hinv)|].
  intros e w' Hd Hchanged.
  destruct (dispatch_requests destLang e w w' Hinv Hd) as [Hsame | Hfire].
  - now elim Hchanged.
  - exact Hfire.
Qed.

Lemma fetch_only_for_nonempty_word_witness :
  let evs := [KeyUp (mkKey (lit "n") false);
              KeyUp (mkKey (lit "a") false);
              DebounceElapsed] in
  exists w : widget,
    run HINDI evs mount = Some w
    /\ map req_text (requests w) = [lit "na"]
    /\ Forall (fun r => req_text r <> []) (requests w).
Proof.
  intros evs.
  destruct (run HINDI evs mount) as [w|] eqn:Hrun.
  - exists w.
    assert (Hreq : map req_text (requests w) = [lit "na"]).
    { vm_compute in Hrun. injection Hrun as <-. reflexivity. }
    exact (conj eq_refl (conj Hreq
             (proj1 (proj2
                (fetch_only_for_nonempty_word HINDI evs w Hrun))))).
  - exfalso. vm_compute in Hrun. discriminate Hrun.
Defined.

(** ** The composition cells along a run *)

Lemma alnum_key_single (k : jsstring) :
  isAplhaNumeric k = true -> exists c, k = [c] /\ alnum_unit c = true.
Proof.
  destruct k as [|c [|d k]]; simpl; try discriminate.
  intros H. now exists c.
Qed.

Lemma Forall_removelast {A : Type} (P : A -> Prop) (l : list A) :
  Forall P l -> Forall P (removelast l).
Proof.
  induction 1 as [|x l Hx Hl IH]; [constructor|].
  simpl. destruct l; [constructor|]. now constructor.
Qed.

Lemma selectSuggestion_cleared (idx : Z) (s : state) :
  typedWord (selectSuggestion idx s) = []
  /\ suggestion (selectSuggestion idx s) = []
  /\ selectedSuggestion (selectSuggestion idx s) = 0
  /\ showSuggestion (selectSuggestion idx s) = DISPLAY_NONE
  /\ metaKey (selectSuggestion idx s) = false.
Proof.
  unfold selectSuggestion.
  destruct (index (suggestion s) idx) as [c|]; [destruct (truthy c)|];
    simpl; tauto.
Qed.

Lemma cleared_wellformed (s : state) :
  typedWord s = [] -> selectedSuggestion s = 0 -> composition_wellformed s.
Proof.
  intros Hw Hs. unfold composition_wellformed. rewrite Hw, Hs.
  split; [constructor|]. split; [lia|]. now intros _.
Qed.

Lemma handleNonAlphaKeyPress_wellformed (k : jsstring) (s : state) :
  showSuggestion s = DISPLAY_BLOCK ->
  composition_wellformed s ->
  composition_wellformed (handleNonAlphaKeyPress k s).
Proof.
  intros Hvis (Hw & Hsel & Hhid). unfold handleNonAlphaKeyPress.
  destruct (str_eqb k (lit "ArrowDown")).
  { split; [exact Hw|]. split; simpl.
    - destruct (selectedSuggestion s <? arr_length (suggestion s) - 1); lia.
    - rewrite Hvis. discriminate. }
  destruct (str_eqb k (lit "ArrowUp")).
  { split; [exact Hw|]. split; simpl.
    - destruct (Z.gtb_spec (selectedSuggestion s) 0); lia.
    - rewrite Hvis. discriminate. }
  destruct (str_eqb k (lit "Enter")).
  { destruct (selectSuggestion_cleared (selectedSuggestion s) s)
      as (H1 & _ & H2 & _). now apply cleared_wellformed. }
  destruct (str_eqb k (lit " ")).
  { destruct (selectSuggestion_cleared (selectedSuggestion s) s)
      as (H1 & _ & H2 & _). now apply cleared_wellformed. }
  destruct (str_eqb k (lit "Backspace"));
    [|exact (conj Hw (conj Hsel Hhid))].
  destruct (truthy (typedWord s)) eqn:Ht.
  - split; simpl.
    + rewrite slice_drop_last. now apply Forall_removelast.
    + split; [exact Hsel|]. rewrite Hvis. discriminate.
  - now apply cleared_wellformed.
Qed.

Lemma onKeyUp_wellformed (e : key_event) (s : state) :
  composition_wellformed s -> composition_wellformed (onKeyUp e s).
Proof.
  intros Hwf. unfold onKeyUp.
  destruct (ev_metaKey e || str_eqb (key e) (lit "Meta")); [exact Hwf|].
  destruct (metaKey s); [exact Hwf|].
  destruct (isAplhaNumeric (key e)) eqn:Ha.
  - destruct Hwf as (Hw & Hsel & _).
    destruct (alnum_key_single _ Ha) as (c & Hk & Hc).
    split; simpl.
    + apply Forall_app. split; [exact Hw|]. rewrite Hk. now repeat constructor.
    + split; [exact Hsel | discriminate].
  - destruct (showSuggestion s) eqn:Hshow; simpl; [exact Hwf|].
    now apply handleNonAlphaKeyPress_wellformed.
Qed.

Lemma onChange_composition (c : change_event) (s : state) :
  typedWord (onChange c s) = typedWord s
  /\ suggestion (onChange c s) = suggestion s
  /\ showSuggestion (onChange c s) = showSuggestion s
  /\ selectedSuggestion (onChange c s) = selectedSuggestion s
  /\ metaKey (onChange c s) = metaKey s.
Proof.
  unfold onChange.
  destruct (display_eqb (showSuggestion s) DISPLAY_BLOCK); [tauto|].
  destruct (isAplhaNumeric _); simpl; tauto.
Qed.

Lemma dispatch_wellformed
  (destLang : LANGUAGE_CODE) (e : event) (w w' : widget) :
  dispatch destLang e w = Some w' ->
  composition_wellformed (st w) -> composition_wellformed (st w').
Proof.
  intros Hd Hwf. apply dispatch_state in Hd.
  destruct e; try (rewrite Hd; exact Hwf).
  - rewrite Hd. unfold onKeyDown. now destruct (ev_metaKey e).
  - rewrite Hd. now apply onKeyUp_wellformed.
  - destruct (onChange_composition e (st w)) as (H1 & _ & H3 & H4 & _).
    rewrite Hd. unfold composition_wellformed. now rewrite H1, H3, H4.
  - rewrite Hd.
    destruct (selectSuggestion_cleared idx (st w)) as (H1 & _ & H2 & _).
    now apply cleared_wellformed.
  - destruct Hd as [-> | [l ->]]; exact Hwf.
Qed.

Lemma reachable_wellformed
  (destLang : LANGUAGE_CODE) (evs : list event) (w : widget) :
  run destLang evs mount = Some w -> composition_wellformed (st w).
Proof.
  intros Hrun.
  apply (run_invariant destLang (fun _ => True)
           (fun w => composition_wellformed (st w))
           (fun e w0 w1 _ => dispatch_wellformed destLang e w0 w1)
           evs mount w).
  - apply Forall_forall. intros; exact I.
  - exact Hrun.
  - now apply cleared_wellformed.
Qed.

(** X2: in every reachable state the selected index is not negative, and
    while the popup is hidden the typed word is empty and the selected index
    is 0; so a non-empty typed word is always on screen. *)
Theorem hidden_popup_has_no_composition
  (destLang : LANGUAGE_CODE) (evs : list event) (w : widget)
  (Hrun : run destLang evs mount = Some w) :
  0 <= selectedSuggestion (st w)
  /\ (showSuggestion (st w) = DISPLAY_NONE ->
      typedWord (st w) = [] /\ selectedSuggestion (st w) = 0)
  /\ (typedWord (st w) <> [] -> showSuggestion (st w) = DISPLAY_BLOCK).
Proof.
  destruct (reachable_wellformed destLang evs w Hrun) as (_ & Hsel & Hhid).
  split; [exact Hsel|]. split; [exact Hhid|].
  intros Hne. destruct (showSuggestion (st w)); [|reflexivity].
  now destruct (Hhid eq_refl).
Qed.

Lemma hidden_popup_has_no_composition_witness :
  let evs := [KeyUp (mkKey (lit "n") false);
              KeyUp (mkKey (lit "Backspace") false);
              KeyUp (mkKey (lit "Backspace") false)] in
  exists w : widget,
    run HINDI evs mount = Some w
    /\ showSuggestion (st w) = DISPLAY_NONE /\ typedWord (st w) = [].
Proof.
  intros evs.
  destruct (run HINDI evs mount) as [w|] eqn:Hrun.
  - exists w.
    assert (Hs : showSuggestion (st w) = DISPLAY_NONE).
    { vm_compute in Hrun. injection Hrun as <-. reflexivity. }
    destruct (hidden_popup_has_no_composition HINDI evs w Hrun)
      as (_ & Hhid & _).
    exact (conj eq_refl (conj Hs (proj1 (Hhid Hs)))).
  - exfalso. vm_compute in Hrun. discriminate Hrun.
Defined.

Lemma reachable_requests_wellformed
  (destLang : LANGUAGE_CODE) (evs : list event) (w : widget) :
  run destLang evs mount = Some w ->
  composition_wellformed (st w) /\ fetch_words_nonempty w
  /\ Forall (request_wellformed destLang) (requests w).
Proof.
  intros Hrun.
  apply (run_invariant destLang (fun _ => True)
           (fun w => composition_wellformed (st w) /\ fetch_words_nonempty w
                     /\ Forall (request_wellformed destLang) (requests w)))
    with (evs := evs) (w := mount).
  - intros e w0 w1 _ Hd (Hwf & Hfetch & Hreq).
    split; [exact (dispatch_wellformed destLang e w0 w1 Hd Hwf)|].
    split; [exact (dispatch_fetch_words destLang e w0 w1 Hd Hfetch)|].
    destruct (dispatch_requests destLang e w0 w1 Hfetch Hd)
      as [-> | (_ & Hne & ->)]; [exact Hreq|].
    apply Forall_app. split; [exact Hreq|].
    constructor; [|constructor].
    split; [exact Hne|]. split; [exact (proj1 Hwf) | reflexivity].
  - apply Forall_forall. intros; exact I.
  - exact Hrun.
  - split; [now apply cleared_wellformed|].
    split; [|constructor]. split; [constructor | discriminate].
Qed.

(** X1: in every reachable state the typed word consists of characters of
    [[A-Za-z0-9]] only, and every request issued so far carries a non-empty
    word of such characters, with the URL built from that word; the word goes
    into the URL unescaped, and never needs escaping. *)
Theorem typed_word_and_requests_alphanumeric
  (destLang : LANGUAGE_CODE) (evs : list event) (w : widget)
  (Hrun : run destLang evs mount = Some w) :
  Forall (fun u => alnum_unit u = true) (typedWord (st w))
  /\ Forall (request_wellformed destLang) (requests w).
Proof.
  destruct (reachable_requests_wellformed destLang evs w Hrun)
    as ((Hw & _) & _ & Hreq).
  exact (conj Hw Hreq).
Qed.

Lemma typed_word_and_requests_alphanumeric_witness :
  let evs := [KeyUp (mkKey (lit "n") false);
              KeyUp (mkKey (lit "-") false);
              KeyUp (mkKey (lit "4") false);
              DebounceElapsed] in
  exists w : widget,
    run HINDI evs mount = Some w
    /\ typedWord (st w) = lit "n4"
    /\ Forall (request_wellformed HINDI) (requests w).
Proof.
  intros evs.
  destruct (run HINDI evs mount) as [w|] eqn:Hrun.
  - exists w.
    assert (Hw : typedWord (st w) = lit "n4").
    { vm_compute in Hrun. injection Hrun as <-. reflexivity. }
    exact (conj eq_refl (conj Hw
             (proj2 (typed_word_and_requests_alphanumeric HINDI evs w Hrun)))).
  - exfalso. vm_compute in Hrun. discriminate Hrun.
Defined.

(** ** Key events *)

Lemma same_cells_refl (s : state) : same_cells s s.
Proof. unfold same_cells. tauto. Qed.

Lemma same_cells_trans (s1 s2 s3 : state) :
  same_cells s1 s2 -> same_cells s2 s3 -> same_cells s1 s3.
Proof.
  unfold same_cells.
  intros (A1 & A2 & A3 & A4 & A5 & A6) (B1 & B2 & B3 & B4 & B5 & B6).
  repeat split; congruence.
Qed.

Lemma onKeyUp_suppressed (e : key_event) (s : state) :
  metaKey s = true ->
  same_cells s (onKeyUp e s) /\ metaKey (onKeyUp e s) = true.
Proof.
  intros Hflag. unfold onKeyUp. rewrite Hflag.
  destruct (ev_metaKey e || str_eqb (key e) (lit "Meta")); simpl;
    split; try assumption; unfold same_cells; simpl; tauto.
Qed.

Lemma onKeyDown_cells (e : key_event) (s : state) :
  same_cells s (onKeyDown e s)
  /\ metaKey (onKeyDown e s) = (ev_metaKey e || metaKey s)
  /\ metaTimers (onKeyDown e s) = metaTimers s.
Proof.
  unfold onKeyDown. destruct (ev_metaKey e); simpl;
    repeat split; reflexivity.
Qed.

(** X3: while the suppression flag is set, a key-up of any key (letters,
    Enter, Backspace, arrows alike) changes no state cell and leaves the flag
    set; a key-down never changes a state cell either. *)
Theorem suppressed_keys_change_nothing
  (e : key_event) (s : state) (Hflag : metaKey s = true) :
  same_cells s (onKeyUp e s) /\ metaKey (onKeyUp e s) = true
  /\ same_cells s (onKeyDown e s) /\ metaKey (onKeyDown e s) = true.
Proof.
  destruct (onKeyUp_suppressed e s Hflag) as [Hc Hf].
  destruct (onKeyDown_cells e s) as (Hd & Hm & _).
  split; [exact Hc|]. split; [exact Hf|]. split; [exact Hd|].
  rewrite Hm, Hflag. apply orb_true_r.
Qed.

Lemma suppressed_keys_change_nothing_witness :
  let s := mkState (lit "ab ") (lit "n") [lit "x"] DISPLAY_BLOCK 0 3 true 0 in
  let e := mkKey (lit "Enter") false in
  metaKey s = true /\ same_cells s (onKeyUp e s).
Proof.
  intros s e.
  assert (Hf : metaKey s = true) by reflexivity.
  exact (conj Hf (proj1 (suppressed_keys_change_nothing e s Hf))).
Defined.

Lemma control_key_false (k : jsstring) (s : state) :
  control_key k = false -> handleNonAlphaKeyPress k s = s.
Proof.
  unfold control_key, handleNonAlphaKeyPress. intros H.
  repeat (apply orb_false_elim in H; destruct H as [H ?]).
  now repeat match goal with Hk : str_eqb k _ = false |- _ => rewrite Hk; clear Hk end.
Qed.

(** X4: a key-up that is not one alphanumeric character changes no state
    cell and not the flag when the popup is hidden (Enter, arrows, Backspace
    go to the text area alone), or when the key is none of ArrowDown,
    ArrowUp, Enter, Space, Backspace (Escape or Tab do not close the
    popup). *)
Theorem other_keys_change_nothing
  (e : key_event) (s : state)
  (Hother : isAplhaNumeric (key e) = false)
  (Hignored : showSuggestion s = DISPLAY_NONE \/ control_key (key e) = false) :
  same_cells s (onKeyUp e s) /\ metaKey (onKeyUp e s) = metaKey s.
Proof.
  unfold onKeyUp.
  destruct (ev_metaKey e || str_eqb (key e) (lit "Meta"));
    [split; [unfold same_cells; simpl; tauto | reflexivity]|].
  destruct (metaKey s) eqn:Hflag;
    [split; [apply same_cells_refl | now rewrite Hflag]|].
  rewrite Hother.
  destruct (showSuggestion s) eqn:Hshow; simpl.
  - split; [apply same_cells_refl | now rewrite Hflag].
  - destruct Hignored as [Hhid | Hkey]; [discriminate|].
    rewrite (control_key_false _ s Hkey).
    split; [apply same_cells_refl | now rewrite Hflag].
Qed.

Lemma other_keys_change_nothing_witness :
  let s := mkState (lit "ab ") (lit "n") [lit "x"] DISPLAY_BLOCK 0 3 false 0 in
  let e := mkKey (lit "Escape") false in
  isAplhaNumeric (key e) = false
  /\ (showSuggestion s = DISPLAY_NONE \/ control_key (key e) = false)
  /\ same_cells s (onKeyUp e s).
Proof.
  intros s e.
  assert (Ho : isAplhaNumeric (key e) = false) by reflexivity.
  assert (Hi : showSuggestion s = DISPLAY_NONE \/ control_key (key e) = false)
    by (right; reflexivity).
  exact (conj Ho (conj Hi (proj1 (other_keys_change_nothing e s Ho Hi)))).
Defined.

Lemma alnum_key_not_meta (k : jsstring) :
  isAplhaNumeric k = true -> str_eqb k (lit "Meta") = false.
Proof.
  intros H. destruct (alnum_key_single k H) as (c & -> & _).
  simpl. apply andb_false_r.
Qed.

(** What an unsuppressed alphanumeric key-up does. *)
Lemma onKeyUp_alnum (e : key_event) (s : state) :
  plain_alnum e -> metaKey s = false ->
  onKeyUp e s
  = setTypedWord (typedWord s ++ key e) (setShowSuggestion DISPLAY_BLOCK s).
Proof.
  intros [Ha Hm] Hflag. unfold onKeyUp.
  now rewrite Hm, (alnum_key_not_meta _ Ha), Hflag, Ha.
Qed.

Lemma keyUps_app (ks1 ks2 : list key_event) (s : state) :
  keyUps (ks1 ++ ks2) s = keyUps ks2 (keyUps ks1 s).
Proof. apply fold_left_app. Qed.

Lemma type_then_backspace (e : key_event) (s : state) :
  plain_alnum e -> metaKey s = false -> showSuggestion s = DISPLAY_BLOCK ->
  onKeyUp (mkKey (lit "Backspace") false) (onKeyUp e s) = s.
Proof.
  intros He Hflag Hvis. rewrite (onKeyUp_alnum e s He Hflag).
  destruct He as [Ha _]. destruct (alnum_key_single _ Ha) as (c & Hk & _).
  rewrite onKeyUp_control; try reflexivity; try assumption.
  simpl key. rewrite handleNonAlphaKeyPress_Backspace. simpl typedWord.
  rewrite Hk.
  replace (truthy (typedWord s ++ [c])) with true
    by (symmetry; apply truthy_nonempty; now destruct (typedWord s)).
  rewrite slice_drop_last, removelast_last.
  destruct s; simpl in *. now subst.
Qed.

(** X5: while the popup is shown and no modifier is held, typing any
    letters and digits and then pressing Backspace once for each of them
    gives back exactly the state before. *)
Theorem typing_undone_by_backspaces
  (ks : list key_event) (s : state)
  (Hkeys : Forall plain_alnum ks)
  (Hflag : metaKey s = false) (Hvisible : showSuggestion s = DISPLAY_BLOCK) :
  keyUps (ks ++ repeat (mkKey (lit "Backspace") false) (List.length ks)) s = s.
Proof.
  revert s Hflag Hvisible. induction Hkeys as [|e ks He _ IH];
    intros s Hflag Hvis; [reflexivity|].
  set (bs := mkKey (lit "Backspace") false) in *.
  simpl List.length.
  change (repeat bs (S (List.length ks)))
    with (bs :: repeat bs (List.length ks)).
  rewrite repeat_cons, app_assoc.
  rewrite keyUps_app.
  change (keyUps ((e :: ks) ++ repeat bs (List.length ks)) s)
    with (keyUps (ks ++ repeat bs (List.length ks)) (onKeyUp e s)).
  rewrite IH.
  - now apply type_then_backspace.
  - now rewrite (onKeyUp_alnum e s He Hflag).
  - now rewrite (onKeyUp_alnum e s He Hflag).
Qed.

Lemma typing_undone_by_backspaces_witness :
  let s := mkState (lit "ab ") (lit "n") [lit "x"] DISPLAY_BLOCK 0 3 false 0 in
  let ks := [mkKey (lit "a") false; mkKey (lit "m") false] in
  Forall plain_alnum ks /\ metaKey s = false
  /\ showSuggestion s = DISPLAY_BLOCK
  /\ typedWord (keyUps ks s) = lit "nam"
  /\ keyUps (ks ++ repeat (mkKey (lit "Backspace") false) 2) s = s.
Proof.
  intros s ks.
  assert (Hk : Forall plain_alnum ks).
  { repeat (apply Forall_cons; [split; reflexivity|]). apply Forall_nil. }
  exact (conj Hk (conj eq_refl (conj eq_refl (conj eq_refl
           (typing_undone_by_backspaces ks s Hk eq_refl eq_refl))))).
Defined.

Lemma selectSuggestion_ignores_selection (idx j : Z) (s : state) :
  selectSuggestion idx (setSelectedSuggestion j s) = selectSuggestion idx s.
Proof.
  unfold selectSuggestion. simpl.
  destruct (index (suggestion s) idx) as [c|]; [destruct (truthy c)|];
    reflexivity.
Qed.

(** X6: a click on list entry [idx] does exactly what Enter, or Space, does
    when that entry is the selected one (popup shown, no modifier held). *)
Theorem click_is_enter_on_selected
  (idx : Z) (s : state)
  (Hvisible : showSuggestion s = DISPLAY_BLOCK) (Hflag : metaKey s = false) :
  onKeyUp (mkKey (lit "Enter") false) (setSelectedSuggestion idx s)
  = selectSuggestion idx s
  /\ onKeyUp (mkKey (lit " ") false) (setSelectedSuggestion idx s)
     = selectSuggestion idx s.
Proof.
  split; (rewrite onKeyUp_control; try reflexivity; try assumption);
    apply selectSuggestion_ignores_selection.
Qed.

Lemma click_is_enter_on_selected_witness :
  let s := mkState (lit "ab ") (lit "n") [lit "x"; lit "y"] DISPLAY_BLOCK 0 3
                   false 0 in
  showSuggestion s = DISPLAY_BLOCK /\ metaKey s = false
  /\ value (onKeyUp (mkKey (lit "Enter") false) (setSelectedSuggestion 1 s))
     = value (selectSuggestion 1 s)
  /\ value (selectSuggestion 1 s) = lit "ab y ".
Proof.
  intros s.
  assert (Hv : showSuggestion s = DISPLAY_BLOCK) by reflexivity.
  assert (Hf : metaKey s = false) by reflexivity.
  exact (conj Hv (conj Hf (conj
           (f_equal value (proj1 (click_is_enter_on_selected 1 s Hv Hf)))
           eq_refl))).
Defined.

Lemma keyUps_suppressed (ks : list key_event) (s : state) :
  metaKey s = true ->
  same_cells s (keyUps ks s) /\ metaKey (keyUps ks s) = true.
Proof.
  revert s. induction ks as [|e ks IH]; intros s Hflag.
  - split; [apply same_cells_refl | exact Hflag].
  - destruct (onKeyUp_suppressed e s Hflag) as [Hc Hf].
    destruct (IH (onKeyUp e s) Hf) as [Hc' Hf'].
    split; [exact (same_cells_trans _ _ _ Hc Hc') | exact Hf'].
Qed.

(** X7: a shortcut leaves the composition as it was.  From the key-down
    that reports the modifier, through any key-ups, to the key-up that
    releases it and the timer that follows, no state cell changes; after
    the timer the suppression flag is off. *)
Theorem shortcut_leaves_composition
  (down release : key_event) (ks : list key_event) (s : state)
  (Hdown : ev_metaKey down = true)
  (Hrelease : ev_metaKey release = true \/ key release = lit "Meta") :
  let s' := metaTimeout (onKeyUp release (keyUps ks (onKeyDown down s))) in
  same_cells s s' /\ metaKey s' = false.
Proof.
  intros s'. unfold s'.
  destruct (onKeyDown_cells down s) as (Hc0 & Hm0 & _).
  rewrite Hdown in Hm0. simpl in Hm0.
  destruct (keyUps_suppressed ks _ Hm0) as [Hc1 Hm1].
  set (s1 := keyUps ks (onKeyDown down s)) in *.
  assert (Hrel : onKeyUp release s1 = setMetaTimers (S (metaTimers s1)) s1).
  { unfold onKeyUp. destruct Hrelease as [-> | ->]; [reflexivity|].
    now rewrite orb_true_r. }
  rewrite Hrel. split; [|reflexivity].
  apply (same_cells_trans _ _ _ Hc0). apply (same_cells_trans _ _ _ Hc1).
  unfold same_cells. simpl. tauto.
Qed.

Lemma shortcut_leaves_composition_witness :
  let s := mkState (lit "ab ") (lit "n") [lit "x"] DISPLAY_BLOCK 0 3 false 0 in
  let down := mkKey (lit "Meta") true in
  let v := mkKey (lit "v") true in
  let release := mkKey (lit "Meta") false in
  ev_metaKey down = true
  /\ (ev_metaKey release = true \/ key release = lit "Meta")
  /\ same_cells s (metaTimeout (onKeyUp release (keyUps [v] (onKeyDown down s)))).
Proof.
  intros s down v release.
  assert (Hr : ev_metaKey release = true \/ key release = lit "Meta")
    by (right; reflexivity).
  exact (conj eq_refl (conj Hr
           (proj1 (shortcut_leaves_composition down release [v] s eq_refl Hr)))).
Defined.

(** ** Debounce *)

Lemma str_eqb_app_false (a b : jsstring) :
  b <> [] -> str_eqb a (a ++ b) = false.
Proof.
  intros Hb. destruct (str_eqb a (a ++ b)) eqn:E; [|reflexivity].
  apply str_eqb_eq in E. rewrite <- (app_nil_r a) in E at 1.
  apply app_inv_head in E. now elim Hb.
Qed.

(** An unsuppressed alphanumeric key-up arms the timer with the new word. *)
Lemma handle_alnum (e : key_event) (w : widget) :
  plain_alnum e -> metaKey (st w) = false ->
  handle (onKeyUp e) w
  = mkWidget (onKeyUp e (st w)) (Some (typedWord (st w) ++ key e))
             (inflight w) (requests w).
Proof.
  intros He Hflag. unfold handle.
  rewrite (onKeyUp_alnum e (st w) He Hflag).
  destruct He as [Ha _]. destruct (alnum_key_single _ Ha) as (c & Hk & _).
  unfold typedWordEffect. simpl typedWord.
  rewrite str_eqb_app_false by (rewrite Hk; discriminate).
  replace (truthy (typedWord (st w) ++ key e)) with true; [reflexivity|].
  symmetry. apply truthy_nonempty. rewrite Hk. now destruct (typedWord (st w)).
Qed.

Lemma run_typing
  (destLang : LANGUAGE_CODE) (ks : list key_event) (rest : list event)
  (w : widget) :
  Forall plain_alnum ks -> metaKey (st w) = false ->
  run destLang (map KeyUp ks ++ rest) w
  = run destLang rest
      (mkWidget (keyUps ks (st w))
                match ks with
                | [] => pending w
                | _ :: _ => Some (typedWord (st w) ++ typed ks)
                end
                (inflight w) (requests w))
  /\ typedWord (keyUps ks (st w)) = typedWord (st w) ++ typed ks.
Proof.
  intros Hks. revert w. induction Hks as [|e ks He Hks IH]; intros w Hflag.
  - simpl. rewrite widget_eta, app_nil_r. now split.
  - simpl map. simpl app. simpl run.
    rewrite (handle_alnum e w He Hflag).
    set (w1 := mkWidget (onKeyUp e (st w)) (Some (typedWord (st w) ++ key e))
                        (inflight w) (requests w)).
    assert (Hflag1 : metaKey (st w1) = false)
      by (simpl; now rewrite (onKeyUp_alnum e (st w) He Hflag)).
    assert (Hword1 : typedWord (st w1) = typedWord (st w) ++ key e)
      by (simpl; now rewrite (onKeyUp_alnum e (st w) He Hflag)).
    destruct (IH w1 Hflag1) as [Hrun Hword].
    change (keyUps (e :: ks) (st w)) with (keyUps ks (st w1)).
    change (typed (e :: ks)) with (key e ++ typed ks).
    rewrite Hrun, Hword, Hword1, <- app_assoc. split; [|reflexivity].
    destruct ks; [|reflexivity].
    simpl. now rewrite app_nil_r.
Qed.

(** X8: however many letters and digits are typed before the debounce
    timer fires (no modifier held), the timer then issues exactly one request,
    for the whole word typed so far. *)
Theorem debounce_coalesces_typing
  (destLang : LANGUAGE_CODE) (ks : list key_event) (w : widget)
  (Hkeys : Forall plain_alnum ks) (Hsome : ks <> [])
  (Hflag : metaKey (st w) = false) :
  let word := typedWord (st w) ++ typed ks in
  run destLang (map KeyUp ks ++ [DebounceElapsed]) w
  = Some (mkWidget (keyUps ks (st w)) None (S (inflight w))
                   (requests w ++ [mkRequest word (request_url destLang word)])).
Proof.
  intros word.
  destruct (run_typing destLang ks [DebounceElapsed] w Hkeys Hflag) as [-> _].
  destruct ks as [|e ks]; [now elim Hsome|].
  simpl run. unfold debouncedSearch. fold word.
  replace (truthy word) with true; [reflexivity|].
  symmetry. apply truthy_nonempty. unfold word.
  inversion Hkeys as [|? ? [Ha _] _]; subst.
  destruct (alnum_key_single _ Ha) as (c & Hk & _).
  change (typed (e :: ks)) with (key e ++ typed ks). rewrite Hk.
  now destruct (typedWord (st w)).
Qed.

Lemma debounce_coalesces_typing_witness :
  let ks := [mkKey (lit "n") false; mkKey (lit "a") false;
             mkKey (lit "m") false] in
  Forall plain_alnum ks /\ ks <> [] /\ metaKey (st mount) = false
  /\ option_map (fun w => map req_text (requests w))
       (run HINDI (map KeyUp ks ++ [DebounceElapsed]) mount)
     = Some [lit "nam"].
Proof.
  intros ks.
  assert (Hk : Forall plain_alnum ks).
  { repeat (apply Forall_cons; [split; reflexivity|]). apply Forall_nil. }
  assert (Hne : ks <> []) by discriminate.
  exact (conj Hk (conj Hne (conj eq_refl
           (f_equal (option_map (fun w => map req_text (requests w)))
              (debounce_coalesces_typing HINDI ks mount Hk Hne eq_refl))))).
Defined.

(** ** Request URLs *)

Lemma language_code_length (l : LANGUAGE_CODE) :
  List.length (language_code l) = 2%nat.
Proof. now destruct l. Qed.

Lemma language_code_inj (a b : LANGUAGE_CODE) :
  language_code a = language_code b -> a = b.
Proof.
  intros H. destruct a, b; try reflexivity; vm_compute in H; discriminate H.
Qed.

Lemma app_eq_tail_length {A : Type} (a c b d : list A) :
  a ++ b = c ++ d -> List.length b = List.length d -> a = c /\ b = d.
Proof.
  revert c. induction a as [|x a IH]; intros [|y c] H Hlen; simpl in H.
  - now split.
  - exfalso. apply (f_equal (@List.length A)) in H.
    simpl in H. rewrite length_app in H. lia.
  - exfalso. apply (f_equal (@List.length A)) in H.
    simpl in H. rewrite length_app in H. lia.
  - injection H as -> H. destruct (IH c H Hlen) as [-> ->]. now split.
Qed.

(** X9: the request URL tells the word and the target language apart: two
    requests have the same URL only if they ask about the same word in the
    same language. *)
Theorem request_url_injective
  (l1 l2 : LANGUAGE_CODE) (w1 w2 : jsstring)
  (Hsame : request_url l1 w1 = request_url l2 w2) :
  l1 = l2 /\ w1 = w2.
Proof.
  unfold request_url in Hsame.
  apply app_inv_head in Hsame.
  apply app_eq_tail_length in Hsame.
  - destruct Hsame as [Hw Hrest]. split; [|exact Hw].
    apply app_inv_head in Hrest.
    apply app_eq_tail_length in Hrest; [|reflexivity].
    apply language_code_inj. exact (proj1 Hrest).
  - rewrite !length_app, !language_code_length. reflexivity.
Qed.

Lemma request_url_injective_witness :
  request_url HINDI (lit "nam") = request_url HINDI (lit "nam")
  /\ HINDI = HINDI /\ lit "nam" = lit "nam".
Proof.
  exact (conj eq_refl
           (request_url_injective HINDI HINDI (lit "nam") (lit "nam") eq_refl)).
Defined.

(** ** Commit and cursor *)

Lemma substring_within (s : jsstring) (a b : Z) :
  0 <= a <= b -> b <= str_length s ->
  substring s a b = firstn (Z.to_nat (b - a)) (skipn (Z.to_nat a) s).
Proof.
  intros Hab Hb. unfold substring.
  replace (Z.min (Z.max a 0) (str_length s)) with a by lia.
  replace (Z.min (Z.max b 0) (str_length s)) with b by lia.
  replace (Z.min a b) with a by lia. replace (Z.max a b) with b by lia.
  reflexivity.
Qed.

(** X10: with the cursor inside the value, a commit of a non-empty
    candidate leaves the text before the cursor and the text after it as they
    were, puts the candidate and one space between them, and places the
    cursor right after that space: the cursor is inside the value again. *)
Theorem commit_inserts_at_cursor
  (s : state) (idx : Z) (c : jsstring)
  (Hfound : index (suggestion s) idx = Some c) (Hnonempty : c <> [])
  (Hrange : cursor_in_range s) :
  let s' := selectSuggestion idx s in
  substring (value s') 0 (cursorPosition s)
  = substring (value s) 0 (cursorPosition s)
  /\ substring (value s') (cursorPosition s) (cursorPosition s') = c ++ lit " "
  /\ substring (value s') (cursorPosition s') (str_length (value s'))
     = substring (value s) (cursorPosition s) (str_length (value s))
  /\ str_length (value s') = str_length (value s) + str_length c + 1
  /\ cursor_in_range s'.
Proof.
  intros s'. destruct Hrange as [H0 Hlen].
  destruct (selectSuggestion_splices s idx c Hfound Hnonempty) as [Hv Hc].
  fold s' in Hv, Hc. unfold value_before_cursor, value_after_cursor in Hv.
  set (n := Z.to_nat (cursorPosition s)) in *.
  set (v := value s) in *.
  assert (Hn : (n <= List.length v)%nat) by (unfold str_length in Hlen; lia).
  assert (Hpre : List.length (firstn n v) = n) by (rewrite length_firstn; lia).
  assert (Hsuf : List.length (skipn n v) = (List.length v - n)%nat)
    by apply length_skipn.
  assert (Hcl : str_length c = Z.of_nat (List.length c)) by reflexivity.
  assert (Htotal : str_length (value s')
                   = str_length v + str_length c + 1).
  { rewrite Hv. unfold str_length. rewrite !length_app, Hpre, Hsuf.
    simpl List.length. lia. }
  split; [|split; [|split; [|split]]].
  - rewrite !substring_prefix. fold n. rewrite Hv.
    rewrite firstn_app, Hpre, Nat.sub_diag, firstn_O, app_nil_r.
    now rewrite firstn_firstn, Nat.min_id.
  - rewrite substring_within by lia. rewrite Hc, Hv. fold n.
    rewrite skipn_app, Hpre, Nat.sub_diag. simpl skipn.
    rewrite skipn_all2 by lia. simpl app.
    replace (Z.to_nat (cursorPosition s + str_length c + 1 - cursorPosition s))
      with (List.length (c ++ lit " "))
      by (rewrite length_app; simpl List.length; lia).
    change (c ++ 32%N :: skipn n v) with (c ++ lit " " ++ skipn n v).
    rewrite app_assoc, firstn_app, Nat.sub_diag, firstn_O, app_nil_r.
    apply firstn_all.
  - rewrite !substring_suffix. fold n. rewrite Hc, Hv.
    replace (Z.to_nat (cursorPosition s + str_length c + 1))
      with (List.length (firstn n v ++ c ++ lit " "))%nat
      by (rewrite !length_app, Hpre; simpl List.length; lia).
    replace (firstn n v ++ c ++ lit " " ++ skipn n v)
      with ((firstn n v ++ c ++ lit " ") ++ skipn n v)
      by (now rewrite <- !app_assoc).
    rewrite skipn_app, Nat.sub_diag, skipn_all. reflexivity.
  - exact Htotal.
  - unfold cursor_in_range. rewrite Hc, Htotal.
    pose proof (str_length_nonneg c). fold v in Hlen. lia.
Qed.

Lemma commit_inserts_at_cursor_witness :
  let s := mkState (lit "ab cd") (lit "x") [lit "y"; lit "x"] DISPLAY_BLOCK 0
                   3 false 0 in
  index (suggestion s) 0 = Some (lit "y") /\ lit "y" <> []
  /\ cursor_in_range s
  /\ substring (value (selectSuggestion 0 s)) 3 5 = lit "y "
  /\ cursor_in_range (selectSuggestion 0 s).
Proof.
  intros s.
  assert (Hne : lit "y" <> []) by discriminate.
  assert (Hr : cursor_in_range s)
    by (unfold cursor_in_range, str_length; simpl; lia).
  destruct (commit_inserts_at_cursor s 0 (lit "y") eq_refl Hne Hr)
    as (_ & Hmid & _ & _ & Hin).
  exact (conj eq_refl (conj Hne (conj Hr (conj Hmid Hin)))).
Defined.

(** X11: once the cursor is inside the value it stays inside along every
    run in which every fetch result stores only strings as candidates and no
    native change has an alphanumeric character before the start of the
    reported selection: key events, commits, clicks, timers, such fetch
    results and adopted native changes all keep
    [0 <= cursorPosition <= length(value)]. *)
Theorem cursor_stays_in_range
  (destLang : LANGUAGE_CODE) (evs : list event) (w w' : widget)
  (Hevs : Forall (fun e => wf_event e /\ string_candidates e = true
                           /\ retreating e = false) evs)
  (Hrun : run destLang evs w = Some w')
  (Hrange : cursor_in_range (st w)) :
  cursor_in_range (st w').
Proof.
  apply (run_invariant destLang
           (fun e => wf_event e /\ string_candidates e = true
                     /\ retreating e = false)
           (fun w => cursor_in_range (st w))) with (evs := evs) (w := w);
    try assumption.
  intros e w0 w1 (He & _ & Hr) Hd [H0 Hup]. split.
  - exact (dispatch_cursor_nonneg destLang e w0 w1 He Hd H0).
  - exact (dispatch_cursor_upper destLang e w0 w1 He Hd Hr Hup).
Qed.

Lemma cursor_stays_in_range_witness :
  let w := mkWidget (mkState (lit "ab ") [] [] DISPLAY_NONE 0 3 false 0)
                    None 0 [] in
  let response :=
    JArr [JStr (lit "SUCCESS");
          JArr [JArr [JStr (lit "n"); JArr [JStr (lit "x")]]]] in
  let evs := [Change (mkChange (lit "ab  ") 4 4);
              KeyUp (mkKey (lit "n") false);
              DebounceElapsed;
              FetchResolved response;
              KeyUp (mkKey (lit "Enter") false)] in
  exists w' : widget,
    Forall (fun e => wf_event e /\ string_candidates e = true
                     /\ retreating e = false) evs
    /\ run HINDI evs w = Some w' /\ cursor_in_range (st w)
    /\ value (st w') = lit "ab  x " /\ cursor_in_range (st w').
Proof.
  intros w response evs.
  assert (Hevs : Forall (fun e => wf_event e /\ string_candidates e = true
                                  /\ retreating e = false) evs).
  { repeat (apply Forall_cons;
            [split; [first [exact I | unfold wf_event, wf_change; cbn; lia]
                    | split; reflexivity]|]).
    apply Forall_nil. }
  assert (Hr : cursor_in_range (st w))
    by (unfold cursor_in_range, str_length; simpl; lia).
  destruct (run HINDI evs w) as [w'|] eqn:Hrun.
  - exists w'.
    assert (Hv : value (st w') = lit "ab  x ").
    { vm_compute in Hrun. injection Hrun as <-. reflexivity. }
    exact (conj Hevs (conj eq_refl (conj Hr (conj Hv
             (cursor_stays_in_range HINDI evs w w' Hevs Hrun Hr))))).
  - exfalso. vm_compute in Hrun. discriminate Hrun.
Defined.

(** ** Fetch results *)

Lemma as_strings_map (l : list jsstring) : as_strings (map JStr l) = Some l.
Proof. induction l as [|x l IH]; simpl; [reflexivity|]. now rewrite IH. Qed.

(** X12: a response of the valid shape whose original and alternatives are
    strings replaces the suggestions by the alternatives followed by the
    original, whatever the state: the typed word, the popup, the selected
    index, value and cursor stay as they are, also when the response comes
    late. *)
Theorem fetch_result_replaces_suggestions
  (destLang : LANGUAGE_CODE) (original : jsstring) (alternatives : list jsstring)
  (more rest1 rest0 : list json) (w : widget) (n : nat)
  (Hinflight : inflight w = S n) :
  dispatch destLang
    (FetchResolved
       (JArr (JStr (lit "SUCCESS")
              :: JArr (JArr (JStr original :: JArr (map JStr alternatives)
                             :: more) :: rest1)
              :: rest0))) w
  = Some (mkWidget (setSuggestion (alternatives ++ [original]) (st w))
                   (pending w) n (requests w)).
Proof.
  simpl dispatch. unfold settle.
  rewrite Hinflight, searchResponse_alternatives_then_original.
  replace (map JStr alternatives ++ [JStr original])
    with (map JStr (alternatives ++ [original]))
    by (now rewrite map_app).
  now rewrite as_strings_map.
Qed.

Lemma fetch_result_replaces_suggestions_witness :
  let w := mkWidget (mkState [] [] [lit "old"] DISPLAY_NONE 0 0 false 0)
                    None 1 [] in
  inflight w = 1%nat
  /\ option_map (fun w' => suggestion (st w'))
       (dispatch HINDI
          (FetchResolved
             (JArr [JStr (lit "SUCCESS");
                    JArr [JArr [JStr (lit "nam");
                                JArr (map JStr [lit "x"; lit "y"])]]])) w)
     = Some [lit "x"; lit "y"; lit "nam"].
Proof.
  intros w.
  exact (conj eq_refl
           (f_equal (option_map (fun w' => suggestion (st w')))
              (fetch_result_replaces_suggestions
                 HINDI (lit "nam") [lit "x"; lit "y"] [] [] [] w 0 eq_refl))).
Defined.

(** X13: a response that is not of the valid shape (not an array, too short,
    another marker, no entry, an entry that is no pair) changes no state
    cell: the suggestions shown stay, and only the fetch is over. *)
Theorem fetch_result_of_other_shape_discarded
  (destLang : LANGUAGE_CODE) (data : json) (w : widget) (n : nat)
  (Hshape : valid_shape data = false) (Hinflight : inflight w = S n) :
  dispatch destLang (FetchResolved data) w
  = Some (mkWidget (st w) (pending w) n (requests w)).
Proof.
  simpl dispatch. unfold settle.
  now rewrite Hinflight, (searchResponse_invalid_shape data Hshape).
Qed.

Lemma fetch_result_of_other_shape_discarded_witness :
  let w := mkWidget (mkState [] (lit "n") [lit "old"] DISPLAY_BLOCK 0 0 false 0)
                    None 1 [] in
  let data := JArr [JStr (lit "FAILED_TO_PARSE_REQUEST_BODY")] in
  valid_shape data = false /\ inflight w = 1%nat
  /\ option_map (fun w' => suggestion (st w'))
       (dispatch HINDI (FetchResolved data) w)
     = Some [lit "old"].
Proof.
  intros w data.
  exact (conj eq_refl (conj eq_refl
           (f_equal (option_map (fun w' => suggestion (st w')))
              (fetch_result_of_other_shape_discarded
                 HINDI data w 0 eq_refl eq_refl)))).
Defined.

(** ** The rendered list *)

Lemma render_from_texts (k : Z) (l : list jsstring) (sel : Z) :
  map fst (render_from k l sel) = l.
Proof.
  revert k. induction l as [|el l IH]; intros k; simpl; [reflexivity|].
  now rewrite IH.
Qed.

Lemma render_from_highlighted (k : Z) (l : list jsstring) (sel : Z) :
  List.length (filter snd (render_from k l sel))
  = if (k <=? sel) && (sel <? k + arr_length l) then 1%nat else 0%nat.
Proof.
  revert k. induction l as [|el l IH]; intros k.
  - simpl. unfold arr_length. simpl.
    destruct (Z.leb_spec k sel), (Z.ltb_spec sel (k + 0)); simpl;
      try reflexivity; lia.
  - assert (Hl : arr_length (el :: l) = arr_length l + 1)
      by (unfold arr_length; simpl List.length; lia).
    rewrite Hl. cbn [render_from filter snd].
    destruct (Z.eqb_spec k sel) as [Heq | Hne]; cbn [List.length];
      rewrite IH;
      destruct (Z.leb_spec k sel), (Z.ltb_spec sel (k + (arr_length l + 1))),
        (Z.leb_spec (k + 1) sel), (Z.ltb_spec sel (k + 1 + arr_length l));
      simpl; try reflexivity; unfold arr_length in *; lia.
Qed.

(** X14: the popup lists the suggestions in order, and highlights exactly
    one entry when the selected index is an index of the list, and none when
    it is not (for instance after a shorter list has arrived). *)
Theorem one_entry_highlighted (s : state) :
  map fst (render_suggestions s) = suggestion s
  /\ (selection_in_range s ->
      List.length (filter snd (render_suggestions s)) = 1%nat)
  /\ (~ selection_in_range s ->
      List.length (filter snd (render_suggestions s)) = 0%nat).
Proof.
  unfold render_suggestions, selection_in_range.
  split; [apply render_from_texts|].
  rewrite render_from_highlighted.
  split; intros H;
    destruct (Z.leb_spec 0 (selectedSuggestion s)),
      (Z.ltb_spec (selectedSuggestion s) (0 + arr_length (suggestion s)));
    simpl; try reflexivity; lia.
Qed.

Lemma one_entry_highlighted_witness :
  let s := mkState [] (lit "n") [lit "x"; lit "y"] DISPLAY_BLOCK 1 0 false 0 in
  selection_in_range s
  /\ List.length (filter snd (render_suggestions s)) = 1%nat.
Proof.
  intros s.
  assert (Hr : selection_in_range s)
    by (unfold selection_in_range, arr_length; simpl; lia).
  exact (conj Hr (proj1 (proj2 (one_entry_highlighted s)) Hr)).
Defined.

(** ** Where the value changes *)

Lemma index_In {A : Type} (a : list A) (i : Z) (x : A) :
  index a i = Some x -> In x a.
Proof.
  unfold index. destruct (i <? 0); [discriminate|]. apply nth_error_In.
Qed.

Lemma selectSuggestion_value (idx : Z) (s : state) :
  value (selectSuggestion idx s) = value s
  \/ exists c, inserted_candidate s (selectSuggestion idx s) c.
Proof.
  destruct (index (suggestion s) idx) as [c|] eqn:Hc.
  - destruct c as [|u c'].
    + left. now rewrite selectSuggestion_nothing by now right.
    + right. exists (u :: c').
      assert (Hne : u :: c' <> []) by discriminate.
      split; [exact (index_In _ _ _ Hc)|]. split; [exact Hne|].
      exact (proj1 (selectSuggestion_splices s idx (u :: c') Hc Hne)).
  - left. now rewrite selectSuggestion_nothing by now left.
Qed.

Lemma handleNonAlphaKeyPress_value (k : jsstring) (s : state) :
  value (handleNonAlphaKeyPress k s) = value s
  \/ exists c, inserted_candidate s (handleNonAlphaKeyPress k s) c.
Proof.
  unfold handleNonAlphaKeyPress.
  destruct (str_eqb k (lit "ArrowDown")); [now left|].
  destruct (str_eqb k (lit "ArrowUp")); [now left|].
  destruct (str_eqb k (lit "Enter")); [apply selectSuggestion_value|].
  destruct (str_eqb k (lit " ")); [apply selectSuggestion_value|].
  destruct (str_eqb k (lit "Backspace")); [|now left].
  destruct (truthy (typedWord s)); now left.
Qed.

Lemma onKeyUp_value (e : key_event) (s : state) :
  value (onKeyUp e s) = value s
  \/ (showSuggestion s = DISPLAY_BLOCK
      /\ exists c, inserted_candidate s (onKeyUp e s) c).
Proof.
  unfold onKeyUp.
  destruct (ev_metaKey e || str_eqb (key e) (lit "Meta")); [now left|].
  destruct (metaKey s); [now left|].
  destruct (isAplhaNumeric (key e)); [now left|].
  destruct (showSuggestion s) eqn:Hshow; simpl; [now left|].
  destruct (handleNonAlphaKeyPress_value (key e) s) as [H | H];
    [now left | right; now split].
Qed.

Lemma onChange_value (c : change_event) (s : state) :
  value (onChange c s) = value s
  \/ (showSuggestion s = DISPLAY_NONE /\ value (onChange c s) = ev_value c).
Proof.
  unfold onChange. destruct (showSuggestion s); simpl.
  - destruct (isAplhaNumeric _); simpl; [now left | right; now split].
  - now left.
Qed.

(** X15: the value changes in two ways only.  Either a native change is
    adopted while the popup is hidden, and the value is the one the text area
    reports; or, while the popup is shown, a commit inserts a non-empty entry
    of the suggestion list and a space at the cursor.  No other event, and no
    timer or fetch result, alters the text. *)
Theorem value_changes_by_edit_or_commit
  (destLang : LANGUAGE_CODE) (e : event) (w w' : widget)
  (Hstep : dispatch destLang e w = Some w')
  (Hchanged : value (st w') <> value (st w)) :
  (showSuggestion (st w) = DISPLAY_NONE
   /\ exists c, e = Change c /\ value (st w') = ev_value c)
  \/ (showSuggestion (st w) = DISPLAY_BLOCK
      /\ ((exists k, e = KeyUp k) \/ (exists idx, e = Click idx))
      /\ exists c, inserted_candidate (st w) (st w') c).
Proof.
  pose proof (dispatch_state destLang e w w' Hstep) as Hst.
  destruct e.
  - exfalso. apply Hchanged. rewrite Hst. unfold onKeyDown.
    now destruct (ev_metaKey e).
  - rewrite Hst in *. destruct (onKeyUp_value e (st w)) as [H | [Hs Hc]];
      [now elim Hchanged|].
    right. split; [exact Hs|]. split; [left; now exists e | exact Hc].
  - rewrite Hst in *. destruct (onChange_value e (st w)) as [H | [Hs Hv]];
      [now elim Hchanged|].
    left. split; [exact Hs|]. now exists e.
  - rewrite Hst in *.
    destruct (selectSuggestion_value idx (st w)) as [H | Hc];
      [now elim Hchanged|].
    right. split.
    + simpl in Hstep. now destruct (showSuggestion (st w)).
    + split; [right; now exists idx | exact Hc].
  - exfalso. apply Hchanged. now rewrite Hst.
  - exfalso. apply Hchanged. now rewrite Hst.
  - exfalso. apply Hchanged. destruct Hst as [-> | [l ->]]; reflexivity.
  - exfalso. apply Hchanged. now rewrite Hst.
Qed.

Lemma value_changes_by_edit_or_commit_witness :
  let w := mkWidget (mkState (lit "ab ") (lit "n") [lit "x"] DISPLAY_BLOCK 0 3
                             false 0) None 0 [] in
  let e := KeyUp (mkKey (lit " ") false) in
  exists w' : widget,
    dispatch HINDI e w = Some w' /\ value (st w') <> value (st w)
    /\ inserted_candidate (st w) (st w') (lit "x").
Proof.
  intros w e.
  destruct (dispatch HINDI e w) as [w'|] eqn:Hd.
  - exists w'.
    assert (Hv : value (st w') = lit "ab x ").
    { vm_compute in Hd. injection Hd as <-. reflexivity. }
    assert (Hch : value (st w') <> value (st w))
      by (rewrite Hv; discriminate).
    destruct (value_changes_by_edit_or_commit HINDI e w w' Hd Hch)
      as [[Hs _] | (_ & _ & [c Hc])]; [discriminate Hs|].
    split; [reflexivity|]. split; [exact Hch|].
    destruct Hc as (Hin & Hne & Hval).
    destruct Hin as [<- | []]. exact (conj (or_introl eq_refl) (conj Hne Hval)).
  - exfalso. vm_compute in Hd. discriminate Hd.
Defined.

(** ** The value callback *)

Lemma changes_only_snoc (log : list jsstring) (v v' : jsstring) :
  changes_only (log ++ [v]) -> v <> v' -> changes_only ((log ++ [v]) ++ [v']).
Proof.
  intros H Hne. induction log as [|a log IH].
  - simpl. tauto.
  - destruct log as [|b log].
    + simpl in *. tauto.
    + simpl in *. destruct H as [Hab H]. split; [exact Hab|]. now apply IH.
Qed.

Lemma dispatch_hosted_log
  (destLang : LANGUAGE_CODE) (e : event) (h h' : hosted) :
  dispatch_hosted destLang e h = Some h' ->
  (exists earlier, notified h = earlier ++ [value (st (inner h))])
  /\ changes_only (notified h) /\ hd_error (notified h) = Some [] ->
  (exists earlier, notified h' = earlier ++ [value (st (inner h'))])
  /\ changes_only (notified h') /\ hd_error (notified h') = Some [].
Proof.
  unfold dispatch_hosted.
  destruct (dispatch destLang e (inner h)) as [w'|]; [|discriminate].
  intros H ([earlier Hlog] & Hch & Hhd). injection H as <-. simpl.
  unfold valueEffect.
  destruct (str_eqb (value (st (inner h))) (value (st w'))) eqn:E.
  - apply str_eqb_eq in E. rewrite <- E.
    split; [now exists earlier|]. now split.
  - assert (Hne : value (st (inner h)) <> value (st w')).
    { intros Heq. apply str_eqb_eq in Heq. congruence. }
    split; [now exists (notified h)|]. split.
    + rewrite Hlog in *. now apply changes_only_snoc.
    + rewrite Hlog in *. now destruct earlier.
Qed.

(** X16: the host's callback is first called with the empty value, and
    after every run its last call carried the current value; it is called
    only when the value changed, so no two calls in a row carry the same
    value. *)
Theorem host_knows_current_value
  (destLang : LANGUAGE_CODE) (evs : list event) (h : hosted)
  (Hrun : run_hosted destLang evs mount_hosted = Some h) :
  (exists earlier, notified h = earlier ++ [value (st (inner h))])
  /\ changes_only (notified h) /\ hd_error (notified h) = Some [].
Proof.
  assert (Hinit : (exists earlier, notified mount_hosted
                                   = earlier ++ [value (st (inner mount_hosted))])
                  /\ changes_only (notified mount_hosted)
                  /\ hd_error (notified mount_hosted) = Some []).
  { split; [now exists []|]. now split. }
  revert Hrun Hinit. generalize mount_hosted as h0.
  induction evs as [|e evs IH]; intros h0 Hrun Hinv.
  - simpl in Hrun. now injection Hrun as <-.
  - simpl in Hrun.
    destruct (dispatch_hosted destLang e h0) as [h1|] eqn:Hd; [|discriminate].
    exact (IH h1 Hrun (dispatch_hosted_log destLang e h0 h1 Hd Hinv)).
Qed.

Lemma host_knows_current_value_witness :
  let evs := [Change (mkChange (lit " ") 1 1);
              KeyUp (mkKey (lit "n") false);
              Change (mkChange (lit " n") 2 2);
              Change (mkChange (lit "  ") 2 2)] in
  exists h : hosted,
    run_hosted HINDI evs mount_hosted = Some h
    /\ notified h = [[]; lit " "]
    /\ changes_only (notified h).
Proof.
  intros evs.
  destruct (run_hosted HINDI evs mount_hosted) as [h|] eqn:Hrun.
  - exists h.
    assert (Hlog : notified h = [[]; lit " "]).
    { vm_compute in Hrun. injection Hrun as <-. reflexivity. }
    exact (conj eq_refl (conj Hlog
             (proj1 (proj2 (host_knows_current_value HINDI evs h Hrun))))).
  - exfalso. vm_compute in Hrun. discriminate Hrun.
Defined.
